(** * install-bridge.js: the After Effects bridge installer

    A shallow embedding of [install-bridge.js] and the properties of its
    four stages: platform resolution, installation lookup, source
    validation and the copy with its elevated fallback.

    The script talks to three things outside itself: the file system
    ([fs.existsSync], [fs.mkdirSync], [fs.copyFileSync]), a subordinate
    process ([execSync]) and the console.  They are modelled by a small
    monad that threads the file system, records every call in a trace and
    carries the two ways a Node script stops early: a thrown exception,
    which [try/catch] intercepts, and [process.exit], which it does not. *)

From stdpp Require Import gmap strings list.
From Stdlib Require Import Ascii ZArith DecimalString Sorted.

(** ** Characters that cannot be written inside a string literal *)

Definition dq : string := String "034"%char EmptyString.
Definition nl : string := String "010"%char EmptyString.

(** ** The file system *)

(** Directories are a set of paths, regular files a map from path to
    content. *)
Record fsys : Type := Fsys {
  dirs : gset string;
  files : gmap string string
}.

(** [fs.existsSync]: true for a directory as well as for a file. *)
Definition existsSync (d : fsys) (p : string) : bool :=
  bool_decide (p ∈ dirs d) || bool_decide (is_Some (files d !! p)).

(** The path itself and every proper prefix of it that ends just before a
    separator: the directories [mkdirSync] creates with [recursive: true].
    The empty prefix (the POSIX root) is left out, it always exists. *)
Fixpoint path_cuts (sep : ascii) (pre p : string) : list string :=
  match p with
  | EmptyString => [pre]
  | String c rest =>
      (if Ascii.eqb c sep && negb (String.eqb pre EmptyString) then [pre] else [])
      ++ path_cuts sep (pre +:+ String c EmptyString) rest
  end.

Definition ancestors (sep : ascii) (p : string) : list string :=
  path_cuts sep EmptyString p.

Definition make_dirs (sep : ascii) (p : string) (d : fsys) : fsys :=
  Fsys (list_to_set (ancestors sep p) ∪ dirs d) (files d).

(** What a completed copy of a file with content [c] to [dst] leaves:
    the destination holds [c], whatever it held before. *)
Definition write_file (dst c : string) (d : fsys) : fsys :=
  Fsys (dirs d) (<[dst := c]> (files d)).

(** ** The host

    Everything the script reads from its surroundings.  The three
    behaviours that the operating system decides (may this directory be
    created, may this file be written, what does the subordinate process
    do) are functions of the host: [Some msg] is the [error.message] of the
    exception the call throws, [None] is success.  [copy_source_error] is
    the [error.message] the system gives to a copy whose source is not a
    regular file (it is absent, or it is a directory): the text depends on
    the system and on the case, and the script only prints it. *)
Record child_result : Type := ChildResult {
  child_error : option string;
  child_disk : fsys
}.

Record host : Type := Host {
  platform : string;
  dirname : string;
  mkdir_error : string -> fsys -> option string;
  copy_error : string -> string -> fsys -> option string;
  spawn : string -> fsys -> child_result;
  copy_source_error : string -> string -> fsys -> string
}.

(** ** Calls recorded in the trace

    Each call with what it answered; [ok = false] is a call that threw. *)
Inductive event : Type :=
  | EvExists (p : string) (found : bool)
  | EvMkdir (p : string) (recursive : bool) (ok : bool)
  | EvCopyFile (src dst : string) (ok : bool)
  | EvExec (cmd : string) (ok : bool)
  | EvLog (s : string)
  | EvError (s : string)
  | EvExit (code : Z).

(** ** The script monad *)
Inductive outcome (A : Type) : Type :=
  | Ret (a : A)
  | Throw (message : string)
  | Exit (code : Z).
Arguments Ret {A} a.
Arguments Throw {A} message.
Arguments Exit {A} code.

Record result (A : Type) : Type := Result {
  res : outcome A;
  disk : fsys;
  trace : list event
}.
Arguments Result {A} res disk trace.
Arguments res {A} r.
Arguments disk {A} r.
Arguments trace {A} r.

Definition M (A : Type) : Type := fsys -> result A.

Definition ret {A} (a : A) : M A := fun d => Result (Ret a) d [].

Definition bind {A B} (m : M A) (k : A -> M B) : M B :=
  fun d =>
    let r := m d in
    match res r with
    | Ret a => let r' := k a (disk r) in
               Result (res r') (disk r') (trace r ++ trace r')
    | Throw e => Result (Throw e) (disk r) (trace r)
    | Exit c => Result (Exit c) (disk r) (trace r)
    end.

Declare Scope script_scope.
Delimit Scope script_scope with script.
Notation "x <- m ;; k" := (bind m (fun x => k))
  (at level 100, m at next level, right associativity) : script_scope.
Notation "m ;; k" := (bind m (fun _ => k))
  (at level 100, right associativity) : script_scope.
Local Open Scope script_scope.

Definition emit (e : event) : M unit := fun d => Result (Ret tt) d [e].

Definition throw {A} (message : string) : M A :=
  fun d => Result (Throw message) d [].

(** [try { body } catch (error) { handler }]: only a thrown exception
    reaches the handler, [process.exit] ends the run through it. *)
Definition try_catch {A} (body : M A) (handler : string -> M A) : M A :=
  fun d =>
    let r := body d in
    match res r with
    | Throw e => let r' := handler e (disk r) in
                 Result (res r') (disk r') (trace r ++ trace r')
    | _ => r
    end.

Definition console_log (s : string) : M unit := emit (EvLog s).
Definition console_error (s : string) : M unit := emit (EvError s).

Definition process_exit {A} (code : Z) : M A :=
  fun d => Result (Exit code) d [EvExit code].

(** ** path.join

    Node's [path] module is [path.win32] on [win32] and [path.posix]
    elsewhere.  [join] puts a separator between its non-empty arguments and
    normalises the result: empty and [.] segments go, a [..] takes the
    segment before it away, repeated separators become one, and on Windows
    both slashes separate and a drive or UNC root is kept as it is.  The
    definitions follow [lib/path.js]; [normalizeString] is written on the
    list of segments instead of character by character. *)
Definition win32 : string := "win32".
Definition darwin : string := "darwin".

Definition isPosixPathSeparator (c : ascii) : bool := Ascii.eqb c "/"%char.

Definition isPathSeparator (c : ascii) : bool :=
  Ascii.eqb c "/"%char || Ascii.eqb c "\"%char.

Definition isWindowsDeviceRoot (c : ascii) : bool :=
  let n := nat_of_ascii c in
  (Nat.leb 65 n && Nat.leb n 90) || (Nat.leb 97 n && Nat.leb n 122).

(** The pieces of [s] between separators; [cur] is the piece being read. *)
Fixpoint path_segments (isSep : ascii -> bool) (cur s : string) : list string :=
  match s with
  | EmptyString => [cur]
  | String c rest =>
      if isSep c then cur :: path_segments isSep EmptyString rest
      else path_segments isSep (cur +:+ String c EmptyString) rest
  end.

(** One segment met by [normalizeString]; [kept] holds the segments kept so
    far, the last one first. *)
Definition normalize_step (allowAboveRoot : bool) (kept : list string)
    (seg : string) : list string :=
  if String.eqb seg EmptyString || String.eqb seg "." then kept
  else if String.eqb seg ".." then
    match kept with
    | last :: before =>
        if String.eqb last ".."
        then (if allowAboveRoot then ".." :: kept else kept)
        else before
    | [] => if allowAboveRoot then [".."] else []
    end
  else seg :: kept.

Definition normalizeString (path : string) (allowAboveRoot : bool)
    (separator : string) (isSep : ascii -> bool) : string :=
  String.concat separator
    (rev' (fold_left (normalize_step allowAboveRoot)
             (path_segments isSep EmptyString path) [])).

Definition first_char_is (p : ascii -> bool) (s : string) : bool :=
  match s with
  | String c _ => p c
  | EmptyString => false
  end.

Fixpoint last_char_is (p : ascii -> bool) (s : string) : bool :=
  match s with
  | EmptyString => false
  | String c EmptyString => p c
  | String _ rest => last_char_is p rest
  end.

Fixpoint take_while (p : ascii -> bool) (s : string) : string :=
  match s with
  | EmptyString => EmptyString
  | String c rest => if p c then String c (take_while p rest) else EmptyString
  end.

Fixpoint drop_while (p : ascii -> bool) (s : string) : string :=
  match s with
  | EmptyString => EmptyString
  | String c rest => if p c then drop_while p rest else s
  end.

Definition nonempty (s : string) : bool := negb (String.eqb s EmptyString).

(** [path.posix.normalize] *)
Definition posix_normalize (path : string) : string :=
  if String.eqb path EmptyString then "."
  else
    let isAbsolute := first_char_is isPosixPathSeparator path in
    let trailingSeparator := last_char_is isPosixPathSeparator path in
    let p := normalizeString path (negb isAbsolute) "/" isPosixPathSeparator in
    if String.eqb p EmptyString then
      (if isAbsolute then "/" else if trailingSeparator then "./" else ".")
    else
      let p := if trailingSeparator then p +:+ "/" else p in
      if isAbsolute then "/" +:+ p else p.

(** [path.posix.join] *)
Definition posix_join (args : list string) : string :=
  match List.filter nonempty args with
  | [] => "."
  | parts => posix_normalize (String.concat "/" parts)
  end.

(** The root that [path.win32.normalize] recognises at the start of a path
    of two characters or more: the device (a drive [C:] or a UNC share
    [\\server\share]) if there is one, whether the path is absolute, and
    what follows the root.  A UNC root with nothing after it is returned at
    once, with a separator at its end. *)
Inductive win32_root : Type :=
  | UncRootOnly (normalized : string)
  | Root (device : option string) (isAbsolute : bool) (rest : string).

Definition win32_parse_root (path : string) : win32_root :=
  match path with
  | String c0 ((String c1 after2) as after1) =>
      if isPathSeparator c0 then
        if isPathSeparator c1 then
          let notSep := fun c => negb (isPathSeparator c) in
          let firstPart := take_while notSep after2 in
          let afterFirst := drop_while notSep after2 in
          if nonempty afterFirst && nonempty firstPart then
            let afterSeps := drop_while isPathSeparator afterFirst in
            if nonempty afterSeps then
              let share := take_while notSep afterSeps in
              let afterShare := drop_while notSep afterSeps in
              if String.eqb afterShare EmptyString then
                UncRootOnly ("\\" +:+ firstPart +:+ "\" +:+ afterSeps +:+ "\")
              else
                Root (Some ("\\" +:+ firstPart +:+ "\" +:+ share)) true afterShare
            else Root None true path
          else Root None true path
        else Root None true after1
      else if isWindowsDeviceRoot c0 && Ascii.eqb c1 ":"%char then
        let device := String c0 (String c1 EmptyString) in
        match after2 with
        | String c2 after3 =>
            if isPathSeparator c2 then Root (Some device) true after3
            else Root (Some device) false after2
        | EmptyString => Root (Some device) false after2
        end
      else Root None false path
  | _ => Root None false path
  end.

(** [path.win32.normalize] *)
Definition win32_normalize (path : string) : string :=
  match path with
  | EmptyString => "."
  | String c EmptyString => if isPosixPathSeparator c then "\" else path
  | _ =>
      match win32_parse_root path with
      | UncRootOnly normalized => normalized
      | Root device isAbsolute rest =>
          let tail :=
            if String.eqb rest EmptyString then EmptyString
            else normalizeString rest (negb isAbsolute) "\" isPathSeparator in
          let tail :=
            if String.eqb tail EmptyString && negb isAbsolute then "." else tail in
          let tail :=
            if nonempty tail && last_char_is isPathSeparator path
            then tail +:+ "\" else tail in
          match device with
          | None => if isAbsolute then "\" +:+ tail else tail
          | Some dev => if isAbsolute then dev +:+ "\" +:+ tail else dev +:+ tail
          end
      end
  end.

(** The number of separators [path.win32.join] finds at the start of its
    first non-empty argument, up to three, and whether that argument is
    taken for a UNC path (exactly two separators, then something else). *)
Definition win32_leading (firstPart : string) : nat * bool :=
  match firstPart with
  | String c0 rest0 =>
      if isPathSeparator c0 then
        match rest0 with
        | String c1 rest1 =>
            if isPathSeparator c1 then
              match rest1 with
              | String c2 _ => if isPathSeparator c2 then (3, true) else (2, false)
              | EmptyString => (2, true)
              end
            else (1, true)
        | EmptyString => (1, true)
        end
      else (0, true)
  | EmptyString => (0, true)
  end.

Fixpoint string_drop (n : nat) (s : string) : string :=
  match n, s with
  | O, _ => s
  | S n', String _ rest => string_drop n' rest
  | S _, EmptyString => EmptyString
  end.

(** [path.win32.join] *)
Definition win32_join (args : list string) : string :=
  match List.filter nonempty args with
  | [] => "."
  | (firstPart :: _) as parts =>
      let joined := String.concat "\" parts in
      let '(slashCount, needsReplace) := win32_leading firstPart in
      let joined :=
        if needsReplace then
          let after := drop_while isPathSeparator (string_drop slashCount joined) in
          let slashCount :=
            String.length joined - String.length after in
          if Nat.leb 2 slashCount then "\" +:+ after else joined
        else joined in
      win32_normalize joined
  end.

(** [path.join] on a platform. *)
Definition node_path_join (plat : string) (args : list string) : string :=
  if String.eqb plat win32 then win32_join args else posix_join args.

(** The separator of the platform, and the join of a located root with
    the folder names the script appends to it.  The roots are the literals
    of lines 15-29: absolute, normalised, with no separator at their end;
    on them and on the folders built from them [path.join] is the
    arguments with the separator between them, as is proved below
    ([path_join_on_candidates]). *)
Definition path_sep (plat : string) : ascii :=
  if String.eqb plat win32 then "\"%char else "/"%char.

Definition path_join (plat : string) (segments : list string) : string :=
  String.concat (String (path_sep plat) EmptyString) segments.

(** [s.replace(/\\/g, '\\\\')]: every backslash is doubled. *)
Fixpoint double_backslashes (s : string) : string :=
  match s with
  | EmptyString => EmptyString
  | String c rest =>
      if Ascii.eqb c "\"%char
      then String "\"%char (String "\"%char (double_backslashes rest))
      else String c (double_backslashes rest)
  end.

Section Script.

Variable h : host.

(** *** Node primitives on this host *)

Definition fs_existsSync (p : string) : M bool :=
  fun d => Result (Ret (existsSync d p)) d [EvExists p (existsSync d p)].

(** [fs.mkdirSync(p, { recursive: true })] *)
Definition fs_mkdirSync (p : string) : M unit :=
  fun d =>
    match mkdir_error h p d with
    | Some e => Result (Throw e) d [EvMkdir p true false]
    | None => Result (Ret tt) (make_dirs (path_sep (platform h)) p d) [EvMkdir p true true]
    end.

(** [fs.copyFileSync(src, dst)]: in the default mode an existing
    destination is overwritten.  A copy that throws is taken to have
    written nothing. *)
Definition fs_copyFileSync (src dst : string) : M unit :=
  fun d =>
    match copy_error h src dst d with
    | Some e => Result (Throw e) d [EvCopyFile src dst false]
    | None =>
        match files d !! src with
        | Some c => Result (Ret tt) (write_file dst c d) [EvCopyFile src dst true]
        | None =>
            Result (Throw (copy_source_error h src dst d)) d
              [EvCopyFile src dst false]
        end
    end.

(** [execSync(cmd, { stdio: 'inherit' })]: returns once the child has
    ended, and throws when the child could not be started or ended with a
    status other than zero.  The child's output goes to the terminal and
    is not looked at. *)
Definition execSync (cmd : string) : M unit :=
  fun d =>
    let c := spawn h cmd d in
    match child_error c with
    | Some e => Result (Throw e) (child_disk c) [EvExec cmd false]
    | None => Result (Ret tt) (child_disk c) [EvExec cmd true]
    end.

(** *** The script, top to bottom *)

Definition getPossibleAfterEffectsPaths : list string :=
  if String.eqb (platform h) win32 then
    [ "C:\Program Files\Adobe\Adobe After Effects 2025";
      "C:\Program Files\Adobe\Adobe After Effects 2024";
      "C:\Program Files\Adobe\Adobe After Effects 2023";
      "C:\Program Files\Adobe\Adobe After Effects 2022";
      "C:\Program Files\Adobe\Adobe After Effects 2021" ]
  else if String.eqb (platform h) darwin then
    [ "/Applications/Adobe After Effects 2025";
      "/Applications/Adobe After Effects 2024";
      "/Applications/Adobe After Effects 2023";
      "/Applications/Adobe After Effects 2022";
      "/Applications/Adobe After Effects 2021" ]
  else [].

(** Lines 38-43. *)
Definition checkSupported (possiblePaths : list string) : M unit :=
  if Nat.eqb (length possiblePaths) 0 then
    console_error "Error: After Effects is not officially supported on this platform.";;
    console_error "After Effects is only available on Windows and macOS.";;
    process_exit 1%Z
  else ret tt.

(** Lines 46-52: [afterEffectsPath] starts as [null] and the loop
    breaks at the first path that exists. *)
Fixpoint findInstallation (possiblePaths : list string) : M (option string) :=
  match possiblePaths with
  | [] => ret None
  | testPath :: rest =>
      found <- fs_existsSync testPath;;
      if found then ret (Some testPath) else findInstallation rest
  end.

Definition manualTarget : M unit :=
  if String.eqb (platform h) win32 then
    console_error "Target: C:\Program Files\Adobe\Adobe After Effects [VERSION]\Support Files\Scripts\ScriptUI Panels\"
  else if String.eqb (platform h) darwin then
    console_error "Target: /Applications/Adobe After Effects [VERSION]/Scripts/ScriptUI Panels/"
  else ret tt.

(** Lines 54-64.  The candidates are non-empty literals, so
    [!afterEffectsPath] holds exactly when it is still [null]. *)
Definition requireInstallation (afterEffectsPath : option string) : M string :=
  match afterEffectsPath with
  | Some root => ret root
  | None =>
      console_error "Error: Could not find After Effects installation.";;
      console_error "Please manually copy the bridge script to your After Effects ScriptUI Panels folder.";;
      console_error "Source: build/scripts/mcp-bridge-auto.jsx";;
      manualTarget;;
      process_exit 1%Z
  end.

(** Line 67. *)
Definition sourceScript : string :=
  node_path_join (platform h)
    [dirname h; "build"; "scripts"; "mcp-bridge-auto.jsx"].

(** Lines 68-73: [destinationFolder] stays [undefined] on any other
    platform. *)
Definition destinationFolder (afterEffectsPath : string) : option string :=
  if String.eqb (platform h) win32 then
    Some (path_join (platform h) [afterEffectsPath; "Support Files"; "Scripts"; "ScriptUI Panels"])
  else if String.eqb (platform h) darwin then
    Some (path_join (platform h) [afterEffectsPath; "Scripts"; "ScriptUI Panels"])
  else None.

(** Line 74: [path.join] throws a [TypeError] on an argument that is
    not a string. *)
Definition destinationScript (folder : option string) : M string :=
  match folder with
  | Some f => ret (path_join (platform h) [f; "mcp-bridge-auto.jsx"])
  | None => throw ("The " +:+ dq +:+ "path" +:+ dq +:+ " argument must be of type string. Received undefined")
  end.

(** Lines 77-81. *)
Definition ensureSource : M unit :=
  found <- fs_existsSync sourceScript;;
  if found then ret tt
  else
    console_error ("Error: Source script not found at " +:+ sourceScript);;
    console_error ("Please run " +:+ dq +:+ "npm run build" +:+ dq +:+ " first to generate the script.");;
    process_exit 1%Z.

(** Lines 84-92. *)
Definition ensureDestinationFolder (folder : string) : M unit :=
  found <- fs_existsSync folder;;
  if found then ret tt
  else
    try_catch (fs_mkdirSync folder)
      (fun message =>
         console_error ("Error creating destination folder: " +:+ message);;
         console_error "You may need administrative privileges to install the script.";;
         process_exit 1%Z).

(** Lines 101-104. *)
Definition elevatedCommandWindows (src dst : string) : string :=
  let command :=
    nl +:+ "        Start-Process PowerShell -Verb RunAs -ArgumentList "
       +:+ dq +:+ "-Command Copy-Item -Path '" +:+ double_backslashes src
       +:+ "' -Destination '" +:+ double_backslashes dst +:+ "' -Force" +:+ dq
       +:+ nl +:+ "      " in
  "powershell -Command " +:+ dq +:+ command +:+ dq.

(** Line 117. *)
Definition elevatedCommandMac (src dst : string) : string :=
  "sudo cp " +:+ dq +:+ src +:+ dq +:+ " " +:+ dq +:+ dst +:+ dq.

(** Lines 98-119. *)
Definition copyAttempts (src dst : string) : M unit :=
  if String.eqb (platform h) win32 then
    try_catch (execSync (elevatedCommandWindows src dst))
      (fun _ =>
         console_log "Elevated copy failed, trying normal copy...";;
         fs_copyFileSync src dst)
  else if String.eqb (platform h) darwin then
    try_catch (fs_copyFileSync src dst)
      (fun _ =>
         console_error "Normal copy failed. Trying with elevated privileges...";;
         execSync (elevatedCommandMac src dst))
  else ret tt.

(** Lines 121-131. *)
Definition nextSteps : M unit :=
  console_log "Bridge script installed successfully!";;
  console_log (nl +:+ "Important next steps:");;
  console_log "1. Open After Effects";;
  (if String.eqb (platform h) win32 then
     console_log "2. Go to Edit > Preferences > Scripting & Expressions"
   else if String.eqb (platform h) darwin then
     console_log "2. Go to Adobe After Effects > Preferences > Scripting & Expressions"
   else ret tt);;
  console_log ("3. Enable " +:+ dq +:+ "Allow Scripts to Write Files and Access Network" +:+ dq);;
  console_log "4. Restart After Effects";;
  console_log "5. Open the bridge panel: Window > mcp-bridge-auto.jsx".

(** Lines 132-143. *)
Definition manualInstallation (src dst message : string) : M unit :=
  console_error ("Error installing script: " +:+ message);;
  console_error (nl +:+ "Please try manual installation:");;
  console_error ("1. Copy: " +:+ src);;
  console_error ("2. To: " +:+ dst);;
  (if String.eqb (platform h) win32 then
     console_error "3. You may need to run as administrator or use File Explorer with admin rights"
   else if String.eqb (platform h) darwin then
     console_error "3. You may need to use sudo or run with administrator privileges"
   else ret tt);;
  process_exit 1%Z.

(** Lines 95-143. *)
Definition copyScript (src dst : string) : M unit :=
  try_catch
    (console_log ("Installing bridge script to " +:+ dst +:+ "...");;
     copyAttempts src dst;;
     nextSteps)
    (manualInstallation src dst).

(** Lines 36-64: the part of the module body that finds the
    installation. *)
Definition locateStage : M string :=
  let possiblePaths := getPossibleAfterEffectsPaths in
  checkSupported possiblePaths;;
  located <- findInstallation possiblePaths;;
  requireInstallation located.

(** Lines 66-143: the part that installs into it.  With
    [destinationFolder] undefined line 74 throws, so line 84 only ever sees
    a string. *)
Definition installStage (afterEffectsPath : string) : M unit :=
  let folder := destinationFolder afterEffectsPath in
  dst <- destinationScript folder;;
  ensureSource;;
  match folder with
  | Some f => ensureDestinationFolder f
  | None => ret tt
  end;;
  copyScript sourceScript dst.

(** The whole module body. *)
Definition script : M unit :=
  afterEffectsPath <- locateStage;;
  installStage afterEffectsPath.

End Script.

(** ** A run of the installer *)

Definition run (h : host) (d : fsys) : result unit := script h d.

(** The status Node ends with: the argument of [process.exit], 1 for an
    exception nobody caught, 0 when the module body ran to its end. *)
Definition exit_status {A} (r : result A) : Z :=
  match res r with
  | Ret _ => 0
  | Throw _ => 1
  | Exit c => c
  end.

(** * Observations on runs *)

(** A result with an earlier trace put in front of its own. *)
Definition prepend {A} (t : list event) (r : result A) : result A :=
  Result (res r) (disk r) (t ++ trace r).

Definition supported (h : host) : Prop :=
  platform h = win32 \/ platform h = darwin.

(** The candidates the loop of lines 47-52 looks at: all up to and
    including the first that exists. *)
Fixpoint upto_first (f : string -> bool) (l : list string) : list string :=
  match l with
  | [] => []
  | x :: rest => x :: (if f x then [] else upto_first f rest)
  end.

Definition probes (d : fsys) (l : list string) : list event :=
  map (fun p => EvExists p (existsSync d p)) (upto_first (existsSync d) l).

(** Line 74 for a folder that is a string. *)
Definition scriptIn (h : host) (folder : string) : string :=
  path_join (platform h) [folder; "mcp-bridge-auto.jsx"].

Definition installing (dst : string) : event :=
  EvLog ("Installing bridge script to " +:+ dst +:+ "...").

(** The closing messages of a successful run. *)
Definition nextStepsLog (h : host) : list event :=
  trace (nextSteps h (Fsys ∅ ∅)).

(** The report of a failed copy stage. *)
Definition manualInstallationLog (h : host) (src dst message : string) : list event :=
  trace (manualInstallation h src dst message (Fsys ∅ ∅)).

(** The copy attempts of a trace, in the order they were made. *)
Definition is_attempt (e : event) : bool :=
  match e with
  | EvCopyFile _ _ _ | EvExec _ _ => true
  | _ => false
  end.

Definition attempts (t : list event) : list event := List.filter is_attempt t.

Definition is_mkdir (e : event) : bool :=
  match e with
  | EvMkdir _ _ _ => true
  | _ => false
  end.

(** Calls that can change the file system. *)
Definition is_mutation (e : event) : bool :=
  match e with
  | EvMkdir _ _ _ | EvCopyFile _ _ _ | EvExec _ _ => true
  | _ => false
  end.

(** Calls that touch the file system at all. *)
Definition is_fs_call (e : event) : bool :=
  match e with
  | EvExists _ _ => true
  | _ => is_mutation e
  end.

(** ** The five ways a run fails, and how each announces itself *)
Inductive failure : Type :=
  | UnsupportedPlatform
  | InstallationNotFound
  | MissingSource
  | DirectoryCreationFailed
  | CopyFailed.

(** The fixed beginning of the first line each failure writes to the
    error stream (lines 40, 55, 78, 88 and 133). *)
Definition headline (k : failure) : string :=
  match k with
  | UnsupportedPlatform => "Error: After Effects is not officially supported on this platform."
  | InstallationNotFound => "Error: Could not find After Effects installation."
  | MissingSource => "Error: Source script not found at "
  | DirectoryCreationFailed => "Error creating destination folder: "
  | CopyFailed => "Error installing script: "
  end.

Fixpoint starts_with (p s : string) : bool :=
  match p with
  | EmptyString => true
  | String a p' =>
      match s with
      | EmptyString => false
      | String b s' => Ascii.eqb a b && starts_with p' s'
      end
  end.

Definition announces (k : failure) (e : event) : bool :=
  match e with
  | EvError s => starts_with (headline k) s
  | _ => false
  end.

Definition reports (k : failure) (t : list event) : bool :=
  existsb (announces k) t.

(** The run gets as far as the copy stage, with [f] the destination
    folder: the platform is supported, an installation is located, the
    source is there and the folder is there or has just been created. *)
Definition reaches_copy (h : host) (d : fsys) (f : string) : Prop :=
  supported h /\
  exists root,
    List.find (existsSync d) (getPossibleAfterEffectsPaths h) = Some root /\
    destinationFolder h root = Some f /\
    existsSync d (sourceScript h) = true /\
    res (ensureDestinationFolder h f d) = Ret tt.

(** ** Success and the five failures, read off the world before the run

    None of these conditions mentions the copy stage or the folder stage
    of the script: they speak of the platform, of what exists, and of what
    the operating system and the subordinate process answer. *)

(** The destination folder is there, or [mkdirSync] would make it. *)
Definition folder_ready (h : host) (d : fsys) (f : string) : bool :=
  existsSync d f
  || match mkdir_error h f d with None => true | Some _ => false end.

(** The file system as it is once the folder is there. *)
Definition stage_disk (h : host) (d : fsys) (f : string) : fsys :=
  if existsSync d f then d else make_dirs (path_sep (platform h)) f d.

(** The direct copy would succeed: the system allows it and the source is
    a regular file. *)
Definition direct_copy_ok (h : host) (src dst : string) (d : fsys) : bool :=
  match copy_error h src dst d, files d !! src with
  | None, Some _ => true
  | _, _ => false
  end.

(** The subordinate process would end with status zero. *)
Definition elevated_ok (h : host) (cmd : string) (d : fsys) : bool :=
  match child_error (spawn h cmd d) with
  | None => true
  | Some _ => false
  end.

(** One of the two attempts of the platform would succeed: on [win32] the
    elevated copy, or the direct copy on what a failed elevation left; on
    [darwin] the direct copy, or the elevated one. *)
Definition some_attempt_ok (h : host) (src dst : string) (d : fsys) : bool :=
  if String.eqb (platform h) win32 then
    elevated_ok h (elevatedCommandWindows src dst) d
    || direct_copy_ok h src dst
         (child_disk (spawn h (elevatedCommandWindows src dst) d))
  else if String.eqb (platform h) darwin then
    direct_copy_ok h src dst d
    || elevated_ok h (elevatedCommandMac src dst) d
  else false.

(** Platform resolved, root located, source validated, directory ensured:
    all that comes before the copy, with [f] the destination folder. *)
Definition installable (h : host) (d : fsys) (f : string) : Prop :=
  supported h /\
  exists root,
    List.find (existsSync d) (getPossibleAfterEffectsPaths h) = Some root /\
    destinationFolder h root = Some f /\
    existsSync d (sourceScript h) = true /\
    folder_ready h d f = true.

(** The state of the world in which each failure arises. *)
Definition failure_condition (h : host) (d : fsys) (k : failure) : Prop :=
  match k with
  | UnsupportedPlatform => platform h <> win32 /\ platform h <> darwin
  | InstallationNotFound =>
      supported h /\
      List.find (existsSync d) (getPossibleAfterEffectsPaths h) = None
  | MissingSource =>
      supported h /\
      is_Some (List.find (existsSync d) (getPossibleAfterEffectsPaths h)) /\
      existsSync d (sourceScript h) = false
  | DirectoryCreationFailed =>
      supported h /\
      exists root f,
        List.find (existsSync d) (getPossibleAfterEffectsPaths h) = Some root /\
        destinationFolder h root = Some f /\
        existsSync d (sourceScript h) = true /\
        existsSync d f = false /\
        is_Some (mkdir_error h f d)
  | CopyFailed =>
      exists f,
        installable h d f /\
        some_attempt_ok h (sourceScript h) (scriptIn h f) (stage_disk h d f) = false
  end.

(** The fully successful terminal state: platform resolved, root located,
    source validated, directory ensured, copy succeeded. *)
Definition completed (h : host) (d : fsys) : Prop :=
  exists f,
    installable h d f /\
    some_attempt_ok h (sourceScript h) (scriptIn h f) (stage_disk h d f) = true.

(** The same conditions told through the stages of the script, as the
    proofs meet them. *)
Definition stage_failure (h : host) (d : fsys) (k : failure) : Prop :=
  match k with
  | UnsupportedPlatform => platform h <> win32 /\ platform h <> darwin
  | InstallationNotFound =>
      supported h /\
      List.find (existsSync d) (getPossibleAfterEffectsPaths h) = None
  | MissingSource =>
      supported h /\
      is_Some (List.find (existsSync d) (getPossibleAfterEffectsPaths h)) /\
      existsSync d (sourceScript h) = false
  | DirectoryCreationFailed =>
      supported h /\
      exists root f,
        List.find (existsSync d) (getPossibleAfterEffectsPaths h) = Some root /\
        destinationFolder h root = Some f /\
        existsSync d (sourceScript h) = true /\
        existsSync d f = false /\
        is_Some (mkdir_error h f d)
  | CopyFailed =>
      exists f e,
        reaches_copy h d f /\
        res (copyAttempts h (sourceScript h) (scriptIn h f)
               (disk (ensureDestinationFolder h f d))) = Throw e
  end.

(** The successful state told through the stages of the script. *)
Definition stage_completed (h : host) (d : fsys) : Prop :=
  exists f,
    reaches_copy h d f /\
    res (copyAttempts h (sourceScript h) (scriptIn h f)
           (disk (ensureDestinationFolder h f d))) = Ret tt.

(** ** What is assumed of the subordinate process, where a property needs it *)

(** The elevated command of the running platform. *)
Definition elevatedCommand (h : host) (src dst : string) : string :=
  if String.eqb (platform h) win32 then elevatedCommandWindows src dst
  else elevatedCommandMac src dst.

(** A subordinate that ends in failure has changed nothing. *)
Definition failed_child_inert (h : host) : Prop :=
  forall cmd d,
    child_error (spawn h cmd d) <> None -> child_disk (spawn h cmd d) = d.

(** A subordinate that ends in success has copied [src] over [dst] and
    done nothing else. *)
Definition elevated_copy_copies (h : host) (src dst : string) : Prop :=
  forall d,
    child_error (spawn h (elevatedCommand h src dst) d) = None ->
    exists content,
      files d !! src = Some content /\
      child_disk (spawn h (elevatedCommand h src dst) d) = write_file dst content d.

(** No candidate root is the destination script, the destination folder
    or an ancestor of the folder of another candidate: installing under one
    root cannot make another root appear. *)
Definition candidates_apart (h : host) : bool :=
  forallb
    (fun root =>
       match destinationFolder h root with
       | None => true
       | Some f =>
           forallb
             (fun q =>
                String.eqb q root
                || negb (existsb (String.eqb q)
                           (scriptIn h f :: ancestors (path_sep (platform h)) f)))
             (getPossibleAfterEffectsPaths h)
       end)
    (getPossibleAfterEffectsPaths h).

(** ** The platform resolver as the specification words it

    A fixed descending sequence of year tags; on Windows the roots
    [<ProgramFiles>\Adobe\Adobe After Effects <YEAR>] with the sub-path
    [Support Files\Scripts\ScriptUI Panels], on macOS the roots
    [/Applications/Adobe After Effects <YEAR>] with the sub-path
    [Scripts/ScriptUI Panels], and nothing for any other identifier. *)
Definition yearSequence : list nat := [2025; 2024; 2023; 2022; 2021].

Definition yearTag (y : nat) : string :=
  NilEmpty.string_of_uint (Nat.to_uint y).

Record profile : Type := Profile {
  candidateRoots : list string;
  subPath : string
}.

Definition reference_resolve (programFiles osId : string) : option profile :=
  if String.eqb osId "win32" then
    Some (Profile
            (map (fun y => programFiles +:+ "\Adobe\Adobe After Effects " +:+ yearTag y)
                 yearSequence)
            "Support Files\Scripts\ScriptUI Panels")
  else if String.eqb osId "darwin" then
    Some (Profile
            (map (fun y => "/Applications/Adobe After Effects " +:+ yearTag y)
                 yearSequence)
            "Scripts/ScriptUI Panels")
  else None.

(** ** Further observations *)

(** Line 121: the first line a successful run logs after the copy. *)
Definition successBanner : string := "Bridge script installed successfully!".

Definition logs (s : string) (e : event) : bool :=
  match e with
  | EvLog x => String.eqb x s
  | _ => false
  end.

(** The lines written to the error stream, in order. *)
Definition error_lines (t : list event) : list string :=
  omap (fun e => match e with EvError s => Some s | _ => None end) t.

(** The message of the [TypeError] that [path.join] throws at line 74 when
    [destinationFolder] is still undefined. *)
Definition pathTypeError : string :=
  "The " +:+ dq +:+ "path" +:+ dq
  +:+ " argument must be of type string. Received undefined".

(** Whether the character occurs in the string. *)
Fixpoint has_char (c : ascii) (s : string) : bool :=
  match s with
  | EmptyString => false
  | String x rest => Ascii.eqb x c || has_char c rest
  end.

(** The candidate root of a version tag on a platform, after lines
    15-29, and the one of a year. *)
Definition candidateTagged (plat tag : string) : string :=
  if String.eqb plat win32
  then "C:\Program Files\Adobe\Adobe After Effects " +:+ tag
  else "/Applications/Adobe After Effects " +:+ tag.

Definition candidateFor (plat : string) (y : nat) : string :=
  candidateTagged plat (yearTag y).

(** ** Example hosts and disks *)

Definition noMkdirError : string -> fsys -> option string := fun _ _ => None.
Definition noCopyError : string -> string -> fsys -> option string := fun _ _ _ => None.
Definition decliningChild : string -> fsys -> child_result :=
  fun _ d => ChildResult (Some "Command failed") d.

(** The message of a copy whose source is absent. *)
Definition enoent : string -> string -> fsys -> string :=
  fun src dst _ =>
    "ENOENT: no such file or directory, copyfile '" +:+ src +:+ "' -> '" +:+ dst +:+ "'".

Definition linuxHost : host :=
  Host "linux" "/repo" noMkdirError noCopyError decliningChild enoent.

Definition winHost : host :=
  Host win32 "C:\repo" noMkdirError noCopyError decliningChild enoent.

Definition macHost : host :=
  Host darwin "/repo" noMkdirError noCopyError decliningChild enoent.

Definition emptyDisk : fsys := Fsys ∅ ∅.

(** 2025 absent, 2024 and 2023 present. *)
Definition winDisk : fsys :=
  Fsys {[ "C:\Program Files\Adobe\Adobe After Effects 2024";
          "C:\Program Files\Adobe\Adobe After Effects 2023" ]}
       {[ "C:\repo\build\scripts\mcp-bridge-auto.jsx" := "bridge v2" ]}.

Definition macDisk : fsys :=
  Fsys {[ "/Applications/Adobe After Effects 2024";
          "/Applications/Adobe After Effects 2023" ]}
       {[ "/repo/build/scripts/mcp-bridge-auto.jsx" := "bridge v2" ]}.

(** An installation, but the bridge has not been built. *)
Definition macDiskNoSource : fsys :=
  Fsys {[ "/Applications/Adobe After Effects 2024" ]} ∅.

Definition winRoot : string := "C:\Program Files\Adobe\Adobe After Effects 2024".
Definition winFolder : string :=
  "C:\Program Files\Adobe\Adobe After Effects 2024\Support Files\Scripts\ScriptUI Panels".
Definition macRoot : string := "/Applications/Adobe After Effects 2024".
Definition macFolder : string :=
  "/Applications/Adobe After Effects 2024/Scripts/ScriptUI Panels".

Definition macSource : string := "/repo/build/scripts/mcp-bridge-auto.jsx".
Definition macTarget : string :=
  "/Applications/Adobe After Effects 2024/Scripts/ScriptUI Panels/mcp-bridge-auto.jsx".

(** A subordinate that copies [src] over [dst] when [src] is a file. *)
Definition copyingChild (src dst : string) : string -> fsys -> child_result :=
  fun _ d =>
    match files d !! src with
    | Some content => ChildResult None (write_file dst content d)
    | None => ChildResult (Some "Command failed") d
    end.

Definition permissionDenied : string -> string -> fsys -> option string :=
  fun _ _ _ => Some "EACCES: permission denied".

(** A Mac on which the direct copy is refused and the elevated one works. *)
Definition macLockedHost : host :=
  Host darwin "/repo" noMkdirError permissionDenied (copyingChild macSource macTarget) enoent.

(** A Windows machine on which both attempts fail. *)
Definition winDeniedHost : host :=
  Host win32 "C:\repo" noMkdirError permissionDenied decliningChild enoent.

(** An earlier version of the bridge is already installed. *)
Definition macInstalledDisk : fsys :=
  Fsys {[ "/Applications/Adobe After Effects 2024"; macFolder ]}
       {[ macSource := "bridge v2"; macTarget := "bridge v1" ]}.

(** Installers unpacked at the root of a volume. *)
Definition macRootHost : host :=
  Host darwin "/" noMkdirError noCopyError decliningChild enoent.

Definition winRootHost : host :=
  Host win32 "C:\" noMkdirError noCopyError decliningChild enoent.

Definition macRootDisk : fsys :=
  Fsys {[ "/Applications/Adobe After Effects 2024" ]}
       {[ "/build/scripts/mcp-bridge-auto.jsx" := "bridge v2" ]}.

(** The build output is a directory where the script should be. *)
Definition macDiskSourceIsDir : fsys :=
  Fsys {[ "/Applications/Adobe After Effects 2024"; macSource ]} ∅.

(** The message of a copy whose source is a directory. *)
Definition eisdir : string -> string -> fsys -> string :=
  fun src dst _ =>
    "EISDIR: illegal operation on a directory, copyfile '" +:+ src +:+ "' -> '"
    +:+ dst +:+ "'".

Definition macDirSourceHost : host :=
  Host darwin "/repo" noMkdirError noCopyError decliningChild eisdir.

Definition winSource : string := "C:\repo\build\scripts\mcp-bridge-auto.jsx".

Definition winDiskSourceIsDir : fsys :=
  Fsys {[ "C:\Program Files\Adobe\Adobe After Effects 2024"; winSource ]} ∅.

Definition winDirSourceHost : host :=
  Host win32 "C:\repo" noMkdirError noCopyError decliningChild eisdir.

(** At the root of a volume, with neither copy allowed. *)
Definition macRootDeniedHost : host :=
  Host darwin "/" noMkdirError permissionDenied decliningChild enoent.

(** * Reasoning about runs *)

(** ** The monad *)

Lemma bind_Ret {A B} (m : M A) (k : A -> M B) d a :
  res (m d) = Ret a ->
  bind m k d = prepend (trace (m d)) (k a (disk (m d))).
Proof. intros E. unfold bind, prepend. now rewrite E. Qed.

Lemma bind_Exit {A B} (m : M A) (k : A -> M B) d c :
  res (m d) = Exit c ->
  bind m k d = Result (Exit c) (disk (m d)) (trace (m d)).
Proof. intros E. unfold bind. now rewrite E. Qed.

Lemma bind_Throw {A B} (m : M A) (k : A -> M B) d e :
  res (m d) = Throw e ->
  bind m k d = Result (Throw e) (disk (m d)) (trace (m d)).
Proof. intros E. unfold bind. now rewrite E. Qed.

Lemma platform_cases h :
  platform h = win32 \/ platform h = darwin \/
  (platform h <> win32 /\ platform h <> darwin).
Proof.
  destruct (String.eqb_spec (platform h) win32); [now left|].
  destruct (String.eqb_spec (platform h) darwin); [now right; left|].
  now right; right.
Qed.

Lemma findInstallation_spec paths d :
  findInstallation paths d
  = Result (Ret (List.find (existsSync d) paths)) d (probes d paths).
Proof.
  induction paths as [|p rest IH]; [reflexivity|].
  cbn [findInstallation]. unfold bind, fs_existsSync, probes. cbn.
  destruct (existsSync d p) eqn:E; cbn; [reflexivity|].
  rewrite IH. reflexivity.
Qed.

Lemma locateStage_unsupported h d :
  platform h <> win32 -> platform h <> darwin ->
  locateStage h d
  = Result (Exit 1) d
      [ EvError "Error: After Effects is not officially supported on this platform.";
        EvError "After Effects is only available on Windows and macOS.";
        EvExit 1 ].
Proof.
  intros Hw Hd. unfold locateStage, getPossibleAfterEffectsPaths.
  apply String.eqb_neq in Hw, Hd. rewrite Hw, Hd. reflexivity.
Qed.

Lemma bind_ret_l {A B} (a : A) (k : A -> M B) d : bind (ret a) k d = k a d.
Proof. unfold bind, ret. cbn. now destruct (k a d). Qed.

Lemma supported_length h :
  supported h -> Nat.eqb (length (getPossibleAfterEffectsPaths h)) 0 = false.
Proof.
  unfold getPossibleAfterEffectsPaths. intros [Hp|Hp]; rewrite Hp; reflexivity.
Qed.

Lemma locateStage_found h d root :
  supported h ->
  List.find (existsSync d) (getPossibleAfterEffectsPaths h) = Some root ->
  locateStage h d = Result (Ret root) d (probes d (getPossibleAfterEffectsPaths h)).
Proof.
  intros Hs Hf. unfold locateStage, checkSupported.
  rewrite (supported_length h Hs), bind_ret_l.
  unfold bind. rewrite findInstallation_spec, Hf. cbn.
  now rewrite app_nil_r.
Qed.

Lemma locateStage_not_found h d :
  supported h ->
  List.find (existsSync d) (getPossibleAfterEffectsPaths h) = None ->
  locateStage h d
  = Result (Exit 1) d
      (probes d (getPossibleAfterEffectsPaths h)
       ++ trace (requireInstallation h None d)).
Proof.
  intros Hs Hf. unfold locateStage, checkSupported.
  rewrite (supported_length h Hs), bind_ret_l.
  unfold bind at 1. rewrite findInstallation_spec, Hf. cbn [res disk trace].
  unfold requireInstallation, manualTarget.
  destruct Hs as [Hp|Hp]; rewrite Hp; reflexivity.
Qed.

Lemma locateStage_disk h d : disk (locateStage h d) = d.
Proof.
  destruct (platform_cases h) as [Hp|[Hp|[Hw Hd]]].
  - destruct (List.find (existsSync d) (getPossibleAfterEffectsPaths h)) eqn:E.
    + now rewrite (locateStage_found h d s) by (auto; now left).
    + now rewrite locateStage_not_found by (auto; now left).
  - destruct (List.find (existsSync d) (getPossibleAfterEffectsPaths h)) eqn:E.
    + now rewrite (locateStage_found h d s) by (auto; now right).
    + now rewrite locateStage_not_found by (auto; now right).
  - now rewrite locateStage_unsupported.
Qed.

Lemma destinationFolder_supported h root :
  supported h -> exists f, destinationFolder h root = Some f.
Proof.
  unfold destinationFolder. intros [Hp|Hp]; rewrite Hp; cbn; eauto.
Qed.

Lemma installStage_unfold h root f d :
  destinationFolder h root = Some f ->
  installStage h root d
  = bind (ensureSource h)
      (fun _ => bind (ensureDestinationFolder h f)
         (fun _ => copyScript h (sourceScript h) (scriptIn h f))) d.
Proof.
  intros E. unfold installStage. rewrite E. cbn [destinationScript].
  now rewrite bind_ret_l.
Qed.

Lemma ensureSource_missing h d :
  existsSync d (sourceScript h) = false ->
  ensureSource h d
  = Result (Exit 1) d
      [ EvExists (sourceScript h) false;
        EvError ("Error: Source script not found at " +:+ sourceScript h);
        EvError ("Please run " +:+ dq +:+ "npm run build" +:+ dq
                 +:+ " first to generate the script.");
        EvExit 1 ].
Proof.
  intros E. unfold ensureSource, bind, fs_existsSync. cbn [res disk trace]. now rewrite E.
Qed.

Lemma ensureSource_ok h d :
  existsSync d (sourceScript h) = true ->
  ensureSource h d = Result (Ret tt) d [EvExists (sourceScript h) true].
Proof.
  intros E. unfold ensureSource, bind, fs_existsSync. cbn [res disk trace]. now rewrite E.
Qed.

Lemma ensureDestinationFolder_exists h f d :
  existsSync d f = true ->
  ensureDestinationFolder h f d = Result (Ret tt) d [EvExists f true].
Proof.
  intros E. unfold ensureDestinationFolder, bind, fs_existsSync. cbn [res disk trace]. now rewrite E.
Qed.

Lemma ensureDestinationFolder_created h f d :
  existsSync d f = false -> mkdir_error h f d = None ->
  ensureDestinationFolder h f d
  = Result (Ret tt) (make_dirs (path_sep (platform h)) f d)
      [EvExists f false; EvMkdir f true true].
Proof.
  intros E Em.
  unfold ensureDestinationFolder, bind, fs_existsSync, try_catch, fs_mkdirSync.
  cbn [res disk trace]. rewrite E. cbn [res disk trace]. now rewrite Em.
Qed.

Lemma ensureDestinationFolder_failed h f d e :
  existsSync d f = false -> mkdir_error h f d = Some e ->
  ensureDestinationFolder h f d
  = Result (Exit 1) d
      [ EvExists f false; EvMkdir f true false;
        EvError ("Error creating destination folder: " +:+ e);
        EvError "You may need administrative privileges to install the script.";
        EvExit 1 ].
Proof.
  intros E Em.
  unfold ensureDestinationFolder, bind, fs_existsSync, try_catch, fs_mkdirSync.
  cbn [res disk trace]. rewrite E. cbn [res disk trace]. now rewrite Em.
Qed.

Lemma nextSteps_spec h d : nextSteps h d = Result (Ret tt) d (nextStepsLog h).
Proof.
  unfold nextStepsLog, nextSteps.
  destruct (platform_cases h) as [Hp|[Hp|[Hw Hd]]].
  - rewrite Hp. reflexivity.
  - rewrite Hp. reflexivity.
  - apply String.eqb_neq in Hw, Hd. rewrite Hw, Hd. reflexivity.
Qed.

Lemma manualInstallation_spec h src dst message d :
  manualInstallation h src dst message d
  = Result (Exit 1) d (manualInstallationLog h src dst message).
Proof.
  unfold manualInstallationLog, manualInstallation.
  destruct (platform_cases h) as [Hp|[Hp|[Hw Hd]]].
  - rewrite Hp. reflexivity.
  - rewrite Hp. reflexivity.
  - apply String.eqb_neq in Hw, Hd. rewrite Hw, Hd. reflexivity.
Qed.

Lemma execSync_cases h cmd d :
  (child_error (spawn h cmd d) = None /\
   execSync h cmd d = Result (Ret tt) (child_disk (spawn h cmd d)) [EvExec cmd true])
  \/ (exists e, child_error (spawn h cmd d) = Some e /\
      execSync h cmd d = Result (Throw e) (child_disk (spawn h cmd d)) [EvExec cmd false]).
Proof.
  unfold execSync. destruct (child_error (spawn h cmd d)) as [e|]; eauto.
Qed.

Lemma fs_copyFileSync_cases h src dst d :
  (exists content, files d !! src = Some content /\
     fs_copyFileSync h src dst d
     = Result (Ret tt) (write_file dst content d) [EvCopyFile src dst true])
  \/ (exists e,
     fs_copyFileSync h src dst d = Result (Throw e) d [EvCopyFile src dst false]).
Proof.
  unfold fs_copyFileSync. destruct (copy_error h src dst d) as [e|]; [eauto|].
  destruct (files d !! src) as [content|]; eauto.
Qed.

Lemma copyAttempts_win32 h src dst d :
  platform h = win32 ->
  copyAttempts h src dst d
  = let x := execSync h (elevatedCommandWindows src dst) d in
    match res x with
    | Throw _ =>
        let y := fs_copyFileSync h src dst (disk x) in
        Result (res y) (disk y)
          (trace x ++ EvLog "Elevated copy failed, trying normal copy..." :: trace y)
    | _ => x
    end.
Proof.
  intros Hp. unfold copyAttempts. rewrite Hp. cbn [String.eqb win32 Ascii.eqb Bool.eqb].
  unfold try_catch. cbn zeta.
  destruct (res (execSync h (elevatedCommandWindows src dst) d)); reflexivity.
Qed.

Lemma copyAttempts_darwin h src dst d :
  platform h = darwin ->
  copyAttempts h src dst d
  = let x := fs_copyFileSync h src dst d in
    match res x with
    | Throw _ =>
        let y := execSync h (elevatedCommandMac src dst) (disk x) in
        Result (res y) (disk y)
          (trace x ++ EvError "Normal copy failed. Trying with elevated privileges..."
                   :: trace y)
    | _ => x
    end.
Proof.
  intros Hp. unfold copyAttempts. rewrite Hp. cbn [String.eqb win32 darwin Ascii.eqb Bool.eqb].
  unfold try_catch. cbn zeta.
  destruct (res (fs_copyFileSync h src dst d)); reflexivity.
Qed.

Lemma copyScript_spec h src dst d :
  copyScript h src dst d
  = let r := copyAttempts h src dst d in
    match res r with
    | Ret _ => Result (Ret tt) (disk r) (installing dst :: trace r ++ nextStepsLog h)
    | Throw e =>
        Result (Exit 1) (disk r)
          (installing dst :: trace r ++ manualInstallationLog h src dst e)
    | Exit c => Result (Exit c) (disk r) (installing dst :: trace r)
    end.
Proof.
  unfold copyScript, try_catch, bind, console_log, emit, installing.
  cbn [res disk trace]. cbn zeta.
  destruct (res (copyAttempts h src dst d)) eqn:E; cbn [res disk trace].
  - rewrite nextSteps_spec. reflexivity.
  - rewrite manualInstallation_spec. reflexivity.
  - reflexivity.
Qed.

(** The copy stage never ends the process from inside its attempts. *)
Lemma copyAttempts_no_exit h src dst d c :
  res (copyAttempts h src dst d) <> Exit c.
Proof.
  destruct (platform_cases h) as [Hp|[Hp|[Hw Hd]]].
  - rewrite copyAttempts_win32 by assumption. cbn zeta.
    destruct (execSync_cases h (elevatedCommandWindows src dst) d)
      as [[_ ->]|(e & _ & ->)]; cbn [res disk trace]; [discriminate|].
    destruct (fs_copyFileSync_cases h src dst
                (child_disk (spawn h (elevatedCommandWindows src dst) d)))
      as [(content & _ & ->)|(e' & ->)]; discriminate.
  - rewrite copyAttempts_darwin by assumption. cbn zeta.
    destruct (fs_copyFileSync_cases h src dst d)
      as [(content & _ & ->)|(e' & ->)]; cbn [res disk trace]; [discriminate|].
    destruct (execSync_cases h (elevatedCommandMac src dst) d)
      as [[_ ->]|(e & _ & ->)]; discriminate.
  - unfold copyAttempts. apply String.eqb_neq in Hw, Hd. rewrite Hw, Hd. discriminate.
Qed.

Lemma ensureDestinationFolder_cases h f d :
  (existsSync d f = true /\
   ensureDestinationFolder h f d = Result (Ret tt) d [EvExists f true])
  \/ (existsSync d f = false /\ mkdir_error h f d = None /\
      ensureDestinationFolder h f d
      = Result (Ret tt) (make_dirs (path_sep (platform h)) f d)
          [EvExists f false; EvMkdir f true true])
  \/ (exists e, existsSync d f = false /\ mkdir_error h f d = Some e /\
      ensureDestinationFolder h f d
      = Result (Exit 1) d
          [ EvExists f false; EvMkdir f true false;
            EvError ("Error creating destination folder: " +:+ e);
            EvError "You may need administrative privileges to install the script.";
            EvExit 1 ]).
Proof.
  destruct (existsSync d f) eqn:Ex.
  - left. split; [reflexivity|]. now apply ensureDestinationFolder_exists.
  - destruct (mkdir_error h f d) as [e|] eqn:Em.
    + right; right. exists e. repeat split.
      now apply ensureDestinationFolder_failed.
    + right; left. repeat split. now apply ensureDestinationFolder_created.
Qed.

(** ** The shapes a run can take

    Every run is one of five: the platform is refused, no installation is
    found, the source is missing, the folder cannot be created, or the
    copy stage is entered. *)
Lemma run_cases h d (P : result unit -> Prop) :
  (platform h <> win32 -> platform h <> darwin ->
   P (Result (Exit 1) d
        [ EvError "Error: After Effects is not officially supported on this platform.";
          EvError "After Effects is only available on Windows and macOS.";
          EvExit 1 ])) ->
  (supported h ->
   List.find (existsSync d) (getPossibleAfterEffectsPaths h) = None ->
   P (Result (Exit 1) d
        (probes d (getPossibleAfterEffectsPaths h)
         ++ trace (requireInstallation h None d)))) ->
  (forall root f,
   supported h ->
   List.find (existsSync d) (getPossibleAfterEffectsPaths h) = Some root ->
   destinationFolder h root = Some f ->
   existsSync d (sourceScript h) = false ->
   P (Result (Exit 1) d
        (probes d (getPossibleAfterEffectsPaths h)
         ++ trace (ensureSource h d)))) ->
  (forall root f e,
   supported h ->
   List.find (existsSync d) (getPossibleAfterEffectsPaths h) = Some root ->
   destinationFolder h root = Some f ->
   existsSync d (sourceScript h) = true ->
   existsSync d f = false ->
   mkdir_error h f d = Some e ->
   P (Result (Exit 1) d
        (probes d (getPossibleAfterEffectsPaths h)
         ++ EvExists (sourceScript h) true
         :: trace (ensureDestinationFolder h f d)))) ->
  (forall root f,
   supported h ->
   List.find (existsSync d) (getPossibleAfterEffectsPaths h) = Some root ->
   destinationFolder h root = Some f ->
   existsSync d (sourceScript h) = true ->
   res (ensureDestinationFolder h f d) = Ret tt ->
   P (prepend
        (probes d (getPossibleAfterEffectsPaths h)
         ++ EvExists (sourceScript h) true
         :: trace (ensureDestinationFolder h f d))
        (copyScript h (sourceScript h) (scriptIn h f)
           (disk (ensureDestinationFolder h f d))))) ->
  P (run h d).
Proof.
  intros Hu Hn Hs Hm Hc. unfold run, script.
  destruct (platform_cases h) as [Hp|[Hp|[Hw Hd]]].
  3: { rewrite (bind_Exit _ _ _ 1%Z) by now rewrite locateStage_unsupported.
       rewrite locateStage_unsupported by assumption. now apply Hu. }
  all: assert (Hsup : supported h) by (unfold supported; tauto).
  all: clear Hu; specialize (Hn Hsup).
  all: specialize (fun root f => Hs root f Hsup).
  all: specialize (fun root f e => Hm root f e Hsup).
  all: specialize (fun root f => Hc root f Hsup).
  all: destruct (List.find (existsSync d) (getPossibleAfterEffectsPaths h))
         as [root|] eqn:Ef;
       [ clear Hn | rewrite (bind_Exit _ _ _ 1%Z) by (now rewrite locateStage_not_found);
                    rewrite locateStage_not_found by assumption; now apply Hn ].
  all: rewrite (bind_Ret _ _ _ root) by now rewrite (locateStage_found h d root).
  all: rewrite (locateStage_found h d root) by assumption; cbn [res disk trace].
  all: destruct (destinationFolder_supported h root Hsup) as [f Efd].
  all: rewrite (installStage_unfold h root f d Efd).
  all: specialize (Hs root f eq_refl Efd).
  all: specialize (fun e => Hm root f e eq_refl Efd).
  all: specialize (Hc root f eq_refl Efd).
  all: destruct (existsSync d (sourceScript h)) eqn:Es;
       [ clear Hs; specialize (fun e => Hm e eq_refl); specialize (Hc eq_refl)
       | rewrite (bind_Exit _ _ _ 1%Z) by (now rewrite ensureSource_missing);
         rewrite ensureSource_missing in Hs |- * by assumption;
         now apply Hs ].
  all: rewrite (bind_Ret _ _ _ tt) by now rewrite ensureSource_ok.
  all: rewrite ensureSource_ok by assumption; cbn [res disk trace].
  all: destruct (res (ensureDestinationFolder h f d)) as [[]|e|c] eqn:Er.
  all: try (rewrite (bind_Ret _ _ _ tt) by assumption; specialize (Hc eq_refl);
            unfold prepend in *; cbn [res disk trace] in *;
            rewrite <- app_assoc in Hc; exact Hc).
  all: clear Hc;
       destruct (ensureDestinationFolder_cases h f d)
         as [[Ex Eq]|[(Ex & Em & Eq)|(e' & Ex & Em & Eq)]];
       rewrite Eq in Er; try discriminate Er.
  all: specialize (Hm e' Ex Em);
       rewrite (bind_Exit _ _ _ 1%Z) by (now rewrite Eq);
       rewrite Eq in Hm |- *; exact Hm.
Qed.

(** ** Lists *)

Lemma find_first_index (f : string -> bool) (l : list string) (x : string) :
  List.find f l = Some x <->
  exists i, l !! i = Some x /\ f x = true /\
            forall j q, j < i -> l !! j = Some q -> f q = false.
Proof.
  induction l as [|y rest IH]; cbn [List.find].
  - split; [discriminate|]. intros (i & Hi & _). now rewrite lookup_nil in Hi.
  - destruct (f y) eqn:Ey.
    + split.
      * intros [= ->]. exists 0. repeat split; [assumption|]. intros j q Hj. lia.
      * intros ([|i] & Hi & Hx & Hbefore).
        -- cbn in Hi. congruence.
        -- specialize (Hbefore 0 y ltac:(lia) eq_refl). congruence.
    + rewrite IH. split.
      * intros (i & Hi & Hx & Hbefore). exists (S i). repeat split; [assumption..|].
        intros [|j] q Hj Hq; cbn in Hq; [congruence|].
        apply (Hbefore j q); [lia|assumption].
      * intros ([|i] & Hi & Hx & Hbefore); cbn in Hi; [congruence|].
        exists i. repeat split; [assumption..|].
        intros j q Hj Hq. apply (Hbefore (S j) q); [lia|assumption].
Qed.

Lemma find_none_iff (f : string -> bool) (l : list string) :
  List.find f l = None <-> forall q, q ∈ l -> f q = false.
Proof.
  induction l as [|y rest IH]; cbn [List.find].
  - split; [|reflexivity]. intros _ q Hq. now apply elem_of_nil in Hq.
  - destruct (f y) eqn:Ey.
    + split; [discriminate|]. intros H. specialize (H y ltac:(left)). congruence.
    + rewrite IH. split.
      * intros H q [->|Hq]%elem_of_cons; auto.
      * intros H q Hq. apply H. now right.
Qed.

Lemma upto_first_take (f : string -> bool) (l : list string) :
  exists n, upto_first f l = take n l.
Proof.
  induction l as [|y rest [n IH]]; [now exists 0|].
  cbn [upto_first]. destruct (f y).
  - now exists 1.
  - exists (S n). cbn. now rewrite IH.
Qed.

Lemma upto_first_none (f : string -> bool) (l : list string) :
  (forall q, q ∈ l -> f q = false) -> upto_first f l = l.
Proof.
  induction l as [|y rest IH]; [reflexivity|]. intros H.
  cbn [upto_first]. rewrite (H y) by now left.
  rewrite IH; [reflexivity|]. intros q Hq. apply H. now right.
Qed.

Lemma probes_none d (l : list string) :
  (forall q, q ∈ l -> existsSync d q = false) ->
  probes d l = map (fun p => EvExists p false) l.
Proof.
  intros H. unfold probes. rewrite upto_first_none by assumption.
  apply map_ext_in. intros q Hq. rewrite H; [reflexivity|].
  now apply list_elem_of_In.
Qed.

Lemma probes_no_mutation d (l : list string) :
  List.filter is_mutation (probes d l) = [].
Proof.
  unfold probes. induction (upto_first (existsSync d) l) as [|p rest IH];
    [reflexivity|exact IH].
Qed.

(** ** The copy stage, platform by platform *)

Lemma copyScript_win32 h src dst d :
  platform h = win32 ->
  let cmd := elevatedCommandWindows src dst in
  let c := spawn h cmd d in
  (child_error c = None /\
   res (copyAttempts h src dst d) = Ret tt /\
   copyScript h src dst d
   = Result (Ret tt) (child_disk c)
       (installing dst :: EvExec cmd true :: nextStepsLog h))
  \/ (exists e content,
      child_error c = Some e /\
      files (child_disk c) !! src = Some content /\
      res (copyAttempts h src dst d) = Ret tt /\
      copyScript h src dst d
      = Result (Ret tt) (write_file dst content (child_disk c))
          (installing dst :: EvExec cmd false
           :: EvLog "Elevated copy failed, trying normal copy..."
           :: EvCopyFile src dst true :: nextStepsLog h))
  \/ (exists e e',
      child_error c = Some e /\
      res (fs_copyFileSync h src dst (child_disk c)) = Throw e' /\
      res (copyAttempts h src dst d) = Throw e' /\
      copyScript h src dst d
      = Result (Exit 1) (child_disk c)
          (installing dst :: EvExec cmd false
           :: EvLog "Elevated copy failed, trying normal copy..."
           :: EvCopyFile src dst false :: manualInstallationLog h src dst e')).
Proof.
  intros Hp cmd c. rewrite copyScript_spec, (copyAttempts_win32 h src dst d Hp).
  cbn zeta. fold cmd.
  destruct (execSync_cases h cmd d) as [[Ec ->]|(e & Ec & ->)]; cbn [res disk trace].
  - left. fold c in Ec |- *. repeat split; assumption.
  - fold c in Ec |- *. 
    destruct (fs_copyFileSync_cases h src dst (child_disk c))
      as [(content & Ef & ->)|(e' & ->)]; cbn [res disk trace].
    + right; left. exists e, content. repeat split; assumption.
    + right; right. exists e, e'. repeat split; assumption.
Qed.

Lemma copyScript_darwin h src dst d :
  platform h = darwin ->
  let cmd := elevatedCommandMac src dst in
  let c := spawn h cmd d in
  (exists content,
   files d !! src = Some content /\
   res (copyAttempts h src dst d) = Ret tt /\
   copyScript h src dst d
   = Result (Ret tt) (write_file dst content d)
       (installing dst :: EvCopyFile src dst true :: nextStepsLog h))
  \/ (exists e,
      res (fs_copyFileSync h src dst d) = Throw e /\
      child_error c = None /\
      res (copyAttempts h src dst d) = Ret tt /\
      copyScript h src dst d
      = Result (Ret tt) (child_disk c)
          (installing dst :: EvCopyFile src dst false
           :: EvError "Normal copy failed. Trying with elevated privileges..."
           :: EvExec cmd true :: nextStepsLog h))
  \/ (exists e e',
      res (fs_copyFileSync h src dst d) = Throw e /\
      child_error c = Some e' /\
      res (copyAttempts h src dst d) = Throw e' /\
      copyScript h src dst d
      = Result (Exit 1) (child_disk c)
          (installing dst :: EvCopyFile src dst false
           :: EvError "Normal copy failed. Trying with elevated privileges..."
           :: EvExec cmd false :: manualInstallationLog h src dst e')).
Proof.
  intros Hp cmd c. rewrite copyScript_spec, (copyAttempts_darwin h src dst d Hp).
  cbn zeta. fold cmd.
  destruct (fs_copyFileSync_cases h src dst d)
    as [(content & Ef & ->)|(e & ->)]; cbn [res disk trace].
  - left. exists content. repeat split; assumption.
  - destruct (execSync_cases h cmd d) as [[Ec ->]|(e' & Ec & ->)];
      cbn [res disk trace]; fold c in Ec |- *.
    + right; left. exists e. repeat split; assumption.
    + right; right. exists e, e'. repeat split; assumption.
Qed.

(** ** Traces, piece by piece *)

Lemma attempts_app (a b : list event) : attempts (a ++ b) = attempts a ++ attempts b.
Proof. apply List.filter_app. Qed.

Lemma attempts_probes d (l : list string) : attempts (probes d l) = [].
Proof.
  unfold probes. induction (upto_first (existsSync d) l) as [|p rest IH];
    [reflexivity|exact IH].
Qed.

Lemma attempts_ensureDestinationFolder h f d :
  attempts (trace (ensureDestinationFolder h f d)) = [].
Proof.
  destruct (ensureDestinationFolder_cases h f d)
    as [[_ ->]|[(_ & _ & ->)|(e & _ & _ & ->)]]; reflexivity.
Qed.

Lemma attempts_nextStepsLog h : attempts (nextStepsLog h) = [].
Proof.
  unfold nextStepsLog, nextSteps.
  destruct (platform_cases h) as [Hp|[Hp|[Hw Hd]]].
  - rewrite Hp. reflexivity.
  - rewrite Hp. reflexivity.
  - apply String.eqb_neq in Hw, Hd. rewrite Hw, Hd. reflexivity.
Qed.

Lemma attempts_manualInstallationLog h src dst e :
  attempts (manualInstallationLog h src dst e) = [].
Proof.
  unfold manualInstallationLog, manualInstallation.
  destruct (platform_cases h) as [Hp|[Hp|[Hw Hd]]].
  - rewrite Hp. reflexivity.
  - rewrite Hp. reflexivity.
  - apply String.eqb_neq in Hw, Hd. rewrite Hw, Hd. reflexivity.
Qed.

Lemma reports_app k (a b : list event) :
  reports k (a ++ b) = reports k a || reports k b.
Proof. apply existsb_app. Qed.

Lemma reports_probes k d (l : list string) : reports k (probes d l) = false.
Proof.
  unfold probes. induction (upto_first (existsSync d) l) as [|p rest IH];
    [reflexivity|exact IH].
Qed.

Lemma reports_nextStepsLog k h : reports k (nextStepsLog h) = false.
Proof.
  unfold nextStepsLog, nextSteps.
  destruct (platform_cases h) as [Hp|[Hp|[Hw Hd]]].
  - rewrite Hp. reflexivity.
  - rewrite Hp. reflexivity.
  - apply String.eqb_neq in Hw, Hd. rewrite Hw, Hd. reflexivity.
Qed.

Lemma reports_manualInstallationLog k h src dst e :
  reports k (manualInstallationLog h src dst e)
  = match k with CopyFailed => true | _ => false end.
Proof.
  unfold manualInstallationLog, manualInstallation.
  destruct (platform_cases h) as [Hp|[Hp|[Hw Hd]]].
  - rewrite Hp. destruct k; reflexivity.
  - rewrite Hp. destruct k; reflexivity.
  - apply String.eqb_neq in Hw, Hd. rewrite Hw, Hd. destruct k; reflexivity.
Qed.

Lemma reports_ensureDestinationFolder_ok k h f d :
  res (ensureDestinationFolder h f d) = Ret tt ->
  reports k (trace (ensureDestinationFolder h f d)) = false.
Proof.
  destruct (ensureDestinationFolder_cases h f d)
    as [[_ ->]|[(_ & _ & ->)|(e & _ & _ & ->)]]; [reflexivity..|discriminate].
Qed.

(** ** A run that reaches the copy stage *)

Lemma run_reaches_copy h d f :
  reaches_copy h d f ->
  run h d
  = prepend
      (probes d (getPossibleAfterEffectsPaths h)
       ++ EvExists (sourceScript h) true
       :: trace (ensureDestinationFolder h f d))
      (copyScript h (sourceScript h) (scriptIn h f)
         (disk (ensureDestinationFolder h f d))).
Proof.
  intros (Hs & root & Hf & Hfd & Hsrc & He).
  apply (run_cases h d (fun r => r = _)).
  - intros Hw Hd. destruct Hs; contradiction.
  - intros _ Hn. congruence.
  - intros root' f' _ _ _ Hsrc'. congruence.
  - intros root' f' e _ Hf' Hfd' _ Hex Hm.
    assert (f' = f) as -> by congruence.
    rewrite (ensureDestinationFolder_failed h f d e) in He by assumption.
    discriminate He.
  - intros root' f' _ Hf' Hfd' _ _.
    assert (f' = f) as -> by congruence. reflexivity.
Qed.

Lemma exit_status_prepended {A} t (r : result A) :
  exit_status (Result (res r) (disk r) (t ++ trace r)) = exit_status r.
Proof. reflexivity. Qed.

Lemma attempts_cons e (t : list event) :
  attempts (e :: t) = if is_attempt e then e :: attempts t else attempts t.
Proof. reflexivity. Qed.

Lemma reports_cons k e (t : list event) :
  reports k (e :: t) = announces k e || reports k t.
Proof. reflexivity. Qed.

Lemma attempts_requireInstallation_None h d :
  attempts (trace (requireInstallation h None d)) = [].
Proof.
  unfold requireInstallation, manualTarget.
  destruct (platform_cases h) as [Hp|[Hp|[Hw Hd]]].
  - rewrite Hp. reflexivity.
  - rewrite Hp. reflexivity.
  - apply String.eqb_neq in Hw, Hd. rewrite Hw, Hd. reflexivity.
Qed.

Lemma attempts_ensureSource h d : attempts (trace (ensureSource h d)) = [].
Proof.
  destruct (existsSync d (sourceScript h)) eqn:E.
  - now rewrite ensureSource_ok.
  - now rewrite ensureSource_missing.
Qed.

Lemma In_attempts e (t : list event) :
  In e t -> is_attempt e = true -> In e (attempts t).
Proof. intros Hin He. apply List.filter_In. now split. Qed.

(** ** Example runs *)

Lemma winHost_reaches_copy : reaches_copy winHost winDisk winFolder.
Proof.
  split; [now left|]. exists winRoot. repeat split; vm_compute; reflexivity.
Qed.

Lemma macHost_reaches_copy : reaches_copy macHost macDisk macFolder.
Proof.
  split; [now right|]. exists macRoot. repeat split; vm_compute; reflexivity.
Qed.

(** ** Paths and directories *)

Lemma append_cons c (s t : string) : String c s +:+ t = String c (s +:+ t).
Proof. reflexivity. Qed.

Lemma append_nil_r (s : string) : s +:+ EmptyString = s.
Proof.
  induction s as [|c s IH]; [reflexivity|]. now rewrite append_cons, IH.
Qed.

Lemma append_assoc (a b c : string) : (a +:+ b) +:+ c = a +:+ (b +:+ c).
Proof.
  induction a as [|x a IH]; [reflexivity|]. now rewrite !append_cons, IH.
Qed.

Lemma path_cuts_last sep (p pre : string) : (pre +:+ p) ∈ path_cuts sep pre p.
Proof.
  revert pre. induction p as [|c rest IH]; intros pre; cbn [path_cuts].
  - rewrite append_nil_r. now left.
  - apply elem_of_app. right.
    specialize (IH (pre +:+ String c EmptyString)).
    now rewrite append_assoc in IH.
Qed.

Lemma ancestors_self sep (p : string) : p ∈ ancestors sep p.
Proof. exact (path_cuts_last sep p EmptyString). Qed.

Lemma make_dirs_ancestors sep (p a : string) d :
  a ∈ ancestors sep p -> a ∈ dirs (make_dirs sep p d).
Proof. intros Ha. cbn. apply elem_of_union. left. now apply elem_of_list_to_set. Qed.

Lemma make_dirs_keeps sep (p : string) d :
  dirs d ⊆ dirs (make_dirs sep p d) /\ files (make_dirs sep p d) = files d.
Proof. split; [cbn; set_solver|reflexivity]. Qed.

(** ** Directory creations in a trace *)

Lemma mkdirs_probes d (l : list string) : List.filter is_mkdir (probes d l) = [].
Proof.
  unfold probes. induction (upto_first (existsSync d) l) as [|p rest IH];
    [reflexivity|exact IH].
Qed.

Lemma mkdirs_nextStepsLog h : List.filter is_mkdir (nextStepsLog h) = [].
Proof.
  unfold nextStepsLog, nextSteps.
  destruct (platform_cases h) as [Hp|[Hp|[Hw Hd]]].
  - rewrite Hp. reflexivity.
  - rewrite Hp. reflexivity.
  - apply String.eqb_neq in Hw, Hd. rewrite Hw, Hd. reflexivity.
Qed.

Lemma mkdirs_manualInstallationLog h src dst e :
  List.filter is_mkdir (manualInstallationLog h src dst e) = [].
Proof.
  unfold manualInstallationLog, manualInstallation.
  destruct (platform_cases h) as [Hp|[Hp|[Hw Hd]]].
  - rewrite Hp. reflexivity.
  - rewrite Hp. reflexivity.
  - apply String.eqb_neq in Hw, Hd. rewrite Hw, Hd. reflexivity.
Qed.

Lemma mkdirs_copyScript h src dst d :
  supported h -> List.filter is_mkdir (trace (copyScript h src dst d)) = [].
Proof.
  intros [Hp|Hp].
  - destruct (copyScript_win32 h src dst d Hp)
      as [(_ & _ & ->)|[(e & content & _ & _ & _ & ->)|(e & e' & _ & _ & _ & ->)]];
      cbn [trace List.filter is_mkdir installing];
      auto using mkdirs_nextStepsLog, mkdirs_manualInstallationLog.
  - destruct (copyScript_darwin h src dst d Hp)
      as [(content & _ & _ & ->)|[(e & _ & _ & _ & ->)|(e & e' & _ & _ & _ & ->)]];
      cbn [trace List.filter is_mkdir installing];
      auto using mkdirs_nextStepsLog, mkdirs_manualInstallationLog.
Qed.

Lemma macLockedHost_exec :
  In (EvExec (elevatedCommandMac macSource macTarget) true)
     (trace (run macLockedHost macDisk)).
Proof. vm_compute. repeat (first [left; reflexivity | right]). Qed.

(** ** Verdicts *)

Lemma ensureDestinationFolder_failed_res h f d :
  existsSync d f = false -> is_Some (mkdir_error h f d) ->
  res (ensureDestinationFolder h f d) = Exit 1.
Proof.
  intros Hex [e Hm]. now rewrite (ensureDestinationFolder_failed h f d e).
Qed.

Ltac break_conditions :=
  repeat match goal with
         | H : _ /\ _ |- _ => destruct H
         | H : exists _, _ |- _ => destruct H
         | H : reaches_copy _ _ _ |- _ => destruct H as (? & ? & ? & ? & ? & ?)
         | H : stage_completed _ _ |- _ => destruct H as (? & ? & ?)
         end.

(** Two conditions on one run that cannot hold together: they disagree on
    the platform, on what the locator found, on the source, or on how the
    folder stage ended. *)
Ltac clash_conditions h d :=
  break_conditions;
  try match goal with
      | Hs : supported h |- _ => destruct Hs; contradiction
      end;
  try match goal with
      | Hx : existsSync d ?f = false, Hm : is_Some (mkdir_error h ?f d) |- _ =>
          pose proof (ensureDestinationFolder_failed_res h f d Hx Hm)
      end;
  try match goal with
      | Hi : is_Some _ |- _ => destruct Hi
      end;
  congruence.

Lemma failure_exclusive h d k k' :
  stage_failure h d k -> stage_failure h d k' -> k = k'.
Proof.
  destruct k, k'; cbn [stage_failure]; intros H H'; try reflexivity;
    exfalso; clash_conditions h d.
Qed.

Lemma completed_no_failure h d k : stage_completed h d -> stage_failure h d k -> False.
Proof.
  destruct k; cbn [stage_failure]; intros H H'; clash_conditions h d.
Qed.

Lemma last_manualInstallationLog h src dst e :
  last (manualInstallationLog h src dst e) = Some (EvExit 1).
Proof.
  unfold manualInstallationLog, manualInstallation.
  destruct (platform_cases h) as [Hp|[Hp|[Hw Hd]]].
  - rewrite Hp. reflexivity.
  - rewrite Hp. reflexivity.
  - apply String.eqb_neq in Hw, Hd. rewrite Hw, Hd. reflexivity.
Qed.

Lemma last_app_exit (a b : list event) :
  last b = Some (EvExit 1) -> last (a ++ b) = Some (EvExit 1).
Proof. intros H. rewrite last_app. now rewrite H. Qed.

(** Every run ends in exactly one of two ways. *)
Lemma run_verdict h d :
  (stage_completed h d /\ exit_status (run h d) = 0%Z
   /\ forall k, reports k (trace (run h d)) = false)
  \/ (exists k,
        stage_failure h d k
        /\ exit_status (run h d) = 1%Z
        /\ last (trace (run h d)) = Some (EvExit 1)
        /\ reports k (trace (run h d)) = true
        /\ forall k', k' <> k -> reports k' (trace (run h d)) = false).
Proof.
  apply (run_cases h d (fun r =>
    (stage_completed h d /\ exit_status r = 0%Z /\ forall k, reports k (trace r) = false)
    \/ (exists k, stage_failure h d k /\ exit_status r = 1%Z
          /\ last (trace r) = Some (EvExit 1)
          /\ reports k (trace r) = true
          /\ forall k', k' <> k -> reports k' (trace r) = false))).
  - intros Hw Hd. right. exists UnsupportedPlatform. repeat split; try assumption.
    intros [] Hk; try reflexivity. contradiction.
  - intros Hs Hn. right. exists InstallationNotFound. cbn [trace].
    assert (E : forall k, reports k (trace (requireInstallation h None d))
                          = match k with InstallationNotFound => true | _ => false end).
    { intros k. unfold requireInstallation, manualTarget.
      destruct Hs as [Hp|Hp]; rewrite Hp; destruct k; reflexivity. }
    repeat split; try assumption.
    + apply last_app_exit. unfold requireInstallation, manualTarget.
      destruct Hs as [Hp|Hp]; rewrite Hp; reflexivity.
    + now rewrite reports_app, reports_probes, E.
    + intros k' Hk. rewrite reports_app, reports_probes, E.
      destruct k'; try reflexivity. contradiction.
  - intros root f Hs Hf Hfd Hsrc. right. exists MissingSource. cbn [trace].
    rewrite ensureSource_missing by assumption.
    repeat split; try assumption.
    + now rewrite Hf.
    + now apply last_app_exit.
    + now rewrite reports_app, reports_probes.
    + intros k' Hk. rewrite reports_app, reports_probes.
      destruct k'; try reflexivity. contradiction.
  - intros root f e Hs Hf Hfd Hsrc Hex Hm. right. exists DirectoryCreationFailed.
    cbn [trace]. rewrite (ensureDestinationFolder_failed h f d e) by assumption.
    repeat split; try assumption.
    + exists root, f. repeat split; try assumption. now rewrite Hm.
    + now apply last_app_exit.
    + now rewrite reports_app, reports_probes.
    + intros k' Hk. rewrite reports_app, reports_probes.
      destruct k'; try reflexivity. contradiction.
  - intros root f Hs Hf Hfd Hsrc He.
    assert (Hr : reaches_copy h d f).
    { split; [assumption|]. exists root. now repeat split. }
    set (src := sourceScript h) in *. set (dst := scriptIn h f) in *.
    set (d1 := disk (ensureDestinationFolder h f d)) in *.
    unfold prepend. cbn [trace disk]. rewrite exit_status_prepended.
    assert (Hpre : forall k t,
      reports k ((probes d (getPossibleAfterEffectsPaths h)
                  ++ EvExists src true :: trace (ensureDestinationFolder h f d)) ++ t)
      = reports k t).
    { intros k t. rewrite !reports_app, reports_probes, reports_cons.
      now rewrite reports_ensureDestinationFolder_ok. }
    destruct Hs as [Hp|Hp].
    + destruct (copyScript_win32 h src dst d1 Hp)
        as [(_ & Ea & ->)|[(e & content & _ & _ & Ea & ->)|(e & e' & _ & _ & Ea & ->)]];
        cbn [trace res disk exit_status].
      * left. split; [exists f; now split|]. split; [reflexivity|].
        intros k. rewrite Hpre, !reports_cons, reports_nextStepsLog. reflexivity.
      * left. split; [exists f; now split|]. split; [reflexivity|].
        intros k. rewrite Hpre, !reports_cons, reports_nextStepsLog. reflexivity.
      * right. exists CopyFailed. repeat split.
        -- exists f, e'. now split.
        -- apply last_app_exit. rewrite !last_cons, last_manualInstallationLog.
           reflexivity.
        -- rewrite Hpre, !reports_cons, reports_manualInstallationLog. reflexivity.
        -- intros k' Hk.
           rewrite Hpre, !reports_cons, reports_manualInstallationLog.
           destruct k'; try reflexivity. contradiction.
    + destruct (copyScript_darwin h src dst d1 Hp)
        as [(content & _ & Ea & ->)|[(e & _ & _ & Ea & ->)|(e & e' & _ & _ & Ea & ->)]];
        cbn [trace res disk exit_status].
      * left. split; [exists f; now split|]. split; [reflexivity|].
        intros k. rewrite Hpre, !reports_cons, reports_nextStepsLog. reflexivity.
      * left. split; [exists f; now split|]. split; [reflexivity|].
        intros k. rewrite Hpre, !reports_cons, reports_nextStepsLog.
        destruct k; reflexivity.
      * right. exists CopyFailed. repeat split.
        -- exists f, e'. now split.
        -- apply last_app_exit. rewrite !last_cons, last_manualInstallationLog.
           reflexivity.
        -- rewrite Hpre, !reports_cons, reports_manualInstallationLog. reflexivity.
        -- intros k' Hk.
           rewrite Hpre, !reports_cons, reports_manualInstallationLog.
           destruct k'; try reflexivity. contradiction.
Qed.

(** ** What a run leaves on the file system *)

Lemma ensureDestinationFolder_disk h f d :
  res (ensureDestinationFolder h f d) = Ret tt ->
  disk (ensureDestinationFolder h f d)
  = if existsSync d f then d else make_dirs (path_sep (platform h)) f d.
Proof.
  destruct (ensureDestinationFolder_cases h f d)
    as [[Ex ->]|[(Ex & _ & ->)|(e & Ex & _ & ->)]]; rewrite Ex;
    [reflexivity..|discriminate].
Qed.

Lemma reaches_copy_unique h d f f' :
  reaches_copy h d f -> reaches_copy h d f' -> f' = f.
Proof.
  intros (_ & root & Hf & Hfd & _) (_ & root' & Hf' & Hfd' & _). congruence.
Qed.

(** A failed run that reached the copy stage ends on the file system the
    copy stage started from. *)
Lemma failed_copy_disk h d f :
  failed_child_inert h ->
  reaches_copy h d f ->
  exit_status (run h d) <> 0%Z ->
  disk (run h d) = disk (ensureDestinationFolder h f d).
Proof.
  intros Hinert Hr Hne. rewrite (run_reaches_copy h d f Hr) in Hne |- *.
  unfold prepend in *. cbn [disk]. rewrite exit_status_prepended in Hne.
  set (d1 := disk (ensureDestinationFolder h f d)) in *.
  destruct Hr as ([Hp|Hp] & _).
  - destruct (copyScript_win32 h (sourceScript h) (scriptIn h f) d1 Hp)
      as [(_ & _ & E)|[(e & content & _ & _ & _ & E)|(e & e' & Ec & _ & _ & E)]];
      rewrite E in Hne |- *; cbn [disk]; try (now destruct Hne).
    apply Hinert. now rewrite Ec.
  - destruct (copyScript_darwin h (sourceScript h) (scriptIn h f) d1 Hp)
      as [(content & _ & _ & E)|[(e & _ & _ & _ & E)|(e & e' & _ & Ec & _ & E)]];
      rewrite E in Hne |- *; cbn [disk]; try (now destruct Hne).
    apply Hinert. now rewrite Ec.
Qed.

(** A run that does not reach the copy stage changes nothing. *)
Lemma unreached_copy_disk h d :
  (forall f, ~ reaches_copy h d f) -> disk (run h d) = d.
Proof.
  intros Hnr. apply (run_cases h d (fun r => disk r = d)); try reflexivity.
  intros root f Hs Hf Hfd Hsrc He. destruct (Hnr f).
  split; [assumption|]. exists root. now repeat split.
Qed.

Lemma reaches_copy_failure h d f k :
  reaches_copy h d f -> stage_failure h d k -> k = CopyFailed.
Proof.
  destruct k; cbn [stage_failure]; intros H H'; try reflexivity;
    exfalso; clash_conditions h d.
Qed.

(** ** Running again on what a run left *)

Lemma candidates_apart_platform h h' :
  platform h = platform h' -> candidates_apart h = candidates_apart h'.
Proof.
  intros E.
  unfold candidates_apart, getPossibleAfterEffectsPaths, destinationFolder, scriptIn.
  now rewrite E.
Qed.

Lemma candidates_apart_supported h : supported h -> candidates_apart h = true.
Proof.
  intros [Hp|Hp].
  - rewrite (candidates_apart_platform h winHost Hp). vm_compute. reflexivity.
  - rewrite (candidates_apart_platform h macHost Hp). vm_compute. reflexivity.
Qed.

Lemma other_candidate_apart h root f q :
  supported h ->
  In root (getPossibleAfterEffectsPaths h) ->
  In q (getPossibleAfterEffectsPaths h) ->
  destinationFolder h root = Some f ->
  q <> root ->
  q <> scriptIn h f /\ q ∉ ancestors (path_sep (platform h)) f.
Proof.
  intros Hs Hroot Hq Hfd Hne.
  pose proof (candidates_apart_supported h Hs) as Ha. unfold candidates_apart in Ha.
  rewrite forallb_forall in Ha. specialize (Ha root Hroot). rewrite Hfd in Ha.
  rewrite forallb_forall in Ha. specialize (Ha q Hq).
  apply orb_true_iff in Ha as [Ha|Ha]; [now apply String.eqb_eq in Ha|].
  apply negb_true_iff in Ha.
  split.
  - intros ->. cbn [existsb] in Ha. now rewrite String.eqb_refl in Ha.
  - intros Hin. apply list_elem_of_In in Hin.
    assert (existsb (String.eqb q)
              (scriptIn h f :: ancestors (path_sep (platform h)) f) = true); [|congruence].
    apply existsb_exists. exists q. split; [now right|apply String.eqb_refl].
Qed.

Lemma existsSync_true_iff d (p : string) :
  existsSync d p = true <-> p ∈ dirs d \/ is_Some (files d !! p).
Proof.
  unfold existsSync. rewrite orb_true_iff, !bool_decide_eq_true. reflexivity.
Qed.

(** What a completed installation into [f] looks like, starting from [d]:
    the folder perhaps created, the script written. *)
Lemma installed_exists_mono h d f content (p : string) :
  existsSync d p = true ->
  existsSync (write_file (scriptIn h f) content
                (disk (ensureDestinationFolder h f d))) p = true.
Proof.
  rewrite !existsSync_true_iff. cbn [dirs files write_file].
  destruct (ensureDestinationFolder_cases h f d)
    as [[_ ->]|[(_ & _ & ->)|(e & _ & _ & ->)]]; cbn [disk dirs files make_dirs].
  all: intros [Hd|Hf]; [left; set_solver|right].
  all: destruct (decide (scriptIn h f = p)) as [->|Hne];
       [rewrite lookup_insert_eq; eauto|now rewrite lookup_insert_ne].
Qed.

Lemma installed_exists_other h d f content (q : string) :
  res (ensureDestinationFolder h f d) = Ret tt ->
  q <> scriptIn h f -> q ∉ ancestors (path_sep (platform h)) f ->
  existsSync (write_file (scriptIn h f) content
                (disk (ensureDestinationFolder h f d))) q
  = existsSync d q.
Proof.
  intros He Hq Ha. rewrite (ensureDestinationFolder_disk h f d He).
  destruct (existsSync d f); unfold existsSync; f_equal; apply bool_decide_ext;
    cbn [dirs files write_file make_dirs];
    try (now rewrite lookup_insert_ne).
  rewrite elem_of_union, elem_of_list_to_set. tauto.
Qed.

Lemma find_ext (f g : string -> bool) (l : list string) :
  (forall q, In q l -> f q = g q) -> List.find f l = List.find g l.
Proof.
  induction l as [|x rest IH]; [reflexivity|]. intros H. cbn [List.find].
  rewrite (H x) by now left. destruct (g x); [reflexivity|].
  apply IH. intros q Hq. apply H. now right.
Qed.

(** The second run locates the same installation and finds its folder. *)
Lemma reaches_copy_again h d f content :
  reaches_copy h d f ->
  files d !! sourceScript h = Some content ->
  let d1 := write_file (scriptIn h f) content (disk (ensureDestinationFolder h f d)) in
  reaches_copy h d1 f
  /\ disk (ensureDestinationFolder h f d1) = d1
  /\ files d1 !! sourceScript h = Some content.
Proof.
  intros (Hs & root & Hf & Hfd & Hsrc & He) Hc d1.
  assert (Hroot : In root (getPossibleAfterEffectsPaths h) /\ existsSync d root = true)
    by now apply List.find_some in Hf.
  assert (Hfolder : existsSync d1 f = true).
  { destruct (existsSync d f) eqn:Ex.
    - now apply installed_exists_mono.
    - subst d1. rewrite existsSync_true_iff. left. cbn [dirs write_file].
      rewrite (ensureDestinationFolder_disk h f d He), Ex.
      apply make_dirs_ancestors, ancestors_self. }
  assert (Hfind : List.find (existsSync d1) (getPossibleAfterEffectsPaths h) = Some root).
  { rewrite <- Hf. apply find_ext. intros q Hq.
    destruct (String.eqb_spec q root) as [->|Hne].
    - destruct Hroot as [_ Hex]. rewrite Hex. now apply installed_exists_mono.
    - destruct (other_candidate_apart h root f q Hs (proj1 Hroot) Hq Hfd Hne).
      now apply installed_exists_other. }
  assert (Hc1 : files d1 !! sourceScript h = Some content).
  { subst d1. cbn [files write_file].
    destruct (decide (scriptIn h f = sourceScript h)) as [->|Hne].
    - apply lookup_insert_eq.
    - rewrite lookup_insert_ne by assumption.
      rewrite (ensureDestinationFolder_disk h f d He).
      now destruct (existsSync d f). }
  pose proof (ensureDestinationFolder_exists h f d1 Hfolder) as Ee.
  split; [|split; [now rewrite Ee|assumption]].
  split; [assumption|]. exists root. repeat split; try assumption.
  - apply existsSync_true_iff. right. now rewrite Hc1.
  - now rewrite Ee.
Qed.

(** A successful run ends with the source's content at the destination,
    on the file system the copy stage started from. *)
Lemma completed_run_disk h d f :
  failed_child_inert h ->
  elevated_copy_copies h (sourceScript h) (scriptIn h f) ->
  reaches_copy h d f ->
  exit_status (run h d) = 0%Z ->
  exists content,
    files (disk (ensureDestinationFolder h f d)) !! sourceScript h = Some content
    /\ disk (run h d)
       = write_file (scriptIn h f) content (disk (ensureDestinationFolder h f d)).
Proof.
  intros Hinert Hcopies Hr H0. rewrite (run_reaches_copy h d f Hr) in H0 |- *.
  unfold prepend in *. cbn [disk]. rewrite exit_status_prepended in H0.
  set (d1 := disk (ensureDestinationFolder h f d)) in *.
  unfold elevated_copy_copies, elevatedCommand in Hcopies.
  destruct Hr as ([Hp|Hp] & _); rewrite Hp in Hcopies;
    cbn [String.eqb win32 darwin Ascii.eqb Bool.eqb] in Hcopies.
  - destruct (copyScript_win32 h (sourceScript h) (scriptIn h f) d1 Hp)
      as [(Ec & _ & E)|[(e & content & Ec & Hsrc & _ & E)|(e & e' & _ & _ & _ & E)]];
      rewrite E in H0 |- *; cbn [disk]; try discriminate H0.
    + destruct (Hcopies d1 Ec) as (content & Hsrc & ->). now exists content.
    + rewrite (Hinert _ d1) in Hsrc |- * by now rewrite Ec. now exists content.
  - destruct (copyScript_darwin h (sourceScript h) (scriptIn h f) d1 Hp)
      as [(content & Hsrc & _ & E)|[(e & _ & Ec & _ & E)|(e & e' & _ & _ & _ & E)]];
      rewrite E in H0 |- *; cbn [disk]; try discriminate H0.
    + now exists content.
    + destruct (Hcopies d1 Ec) as (content & Hsrc & ->). now exists content.
Qed.

Lemma winDeniedHost_reaches_copy : reaches_copy winDeniedHost winDisk winFolder.
Proof.
  split; [now left|]. exists winRoot. repeat split; vm_compute; reflexivity.
Qed.

Lemma decliningChild_inert plat dir mk cp se :
  failed_child_inert (Host plat dir mk cp decliningChild se).
Proof. intros cmd d _. reflexivity. Qed.

Lemma macLockedHost_reaches_copy :
  reaches_copy macLockedHost macInstalledDisk macFolder.
Proof.
  split; [now right|]. exists macRoot. repeat split; vm_compute; reflexivity.
Qed.

Lemma macLockedHost_inert : failed_child_inert macLockedHost.
Proof.
  intros cmd d. cbn. unfold copyingChild.
  destruct (files d !! macSource); [intros H; now destruct H|reflexivity].
Qed.

Lemma macLockedHost_copies :
  elevated_copy_copies macLockedHost (sourceScript macLockedHost)
    (scriptIn macLockedHost macFolder).
Proof.
  intros d. change (sourceScript macLockedHost) with macSource.
  change (scriptIn macLockedHost macFolder) with macTarget.
  cbn [spawn macLockedHost]. unfold copyingChild.
  destruct (files d !! macSource) as [content|]; cbn; [eauto|discriminate].
Qed.

(** ** The conditions read off the world, and the stages of the script *)

Lemma folder_ready_stage h d f :
  folder_ready h d f = true <-> res (ensureDestinationFolder h f d) = Ret tt.
Proof.
  unfold folder_ready.
  destruct (ensureDestinationFolder_cases h f d)
    as [[Ex ->]|[(Ex & Em & ->)|(e & Ex & Em & ->)]]; rewrite Ex, ?Em;
    cbn; split; (reflexivity || discriminate).
Qed.

Lemma installable_reaches_copy h d f : installable h d f <-> reaches_copy h d f.
Proof.
  unfold installable, reaches_copy.
  split; intros (Hs & root & Hf & Hfd & Hsrc & He);
    (split; [assumption|]); exists root; repeat split; try assumption;
    now apply folder_ready_stage.
Qed.

Lemma stage_disk_ensured h d f :
  res (ensureDestinationFolder h f d) = Ret tt ->
  disk (ensureDestinationFolder h f d) = stage_disk h d f.
Proof. apply ensureDestinationFolder_disk. Qed.

Lemma direct_copy_ok_res h src dst d :
  (direct_copy_ok h src dst d = true -> res (fs_copyFileSync h src dst d) = Ret tt)
  /\ (direct_copy_ok h src dst d = false ->
      exists e, res (fs_copyFileSync h src dst d) = Throw e).
Proof.
  unfold direct_copy_ok, fs_copyFileSync.
  destruct (copy_error h src dst d) as [e|];
    [|destruct (files d !! src) as [c|]]; cbn; split; try discriminate; eauto.
Qed.

(** What the two attempts answer decides how the copy stage ends. *)
Lemma some_attempt_ok_res h src dst d :
  supported h ->
  (some_attempt_ok h src dst d = true <-> res (copyAttempts h src dst d) = Ret tt)
  /\ (some_attempt_ok h src dst d = false <->
      exists e, res (copyAttempts h src dst d) = Throw e).
Proof.
  assert (Hsplit : forall (b : bool) (P Q : Prop),
            (b = true -> P) -> (b = false -> Q) -> (P -> Q -> False) ->
            (b = true <-> P) /\ (b = false <-> Q)).
  { intros [|] P Q H1 H2 H3; split; split; auto; try discriminate;
      intros; exfalso; eauto. }
  intros Hs. apply Hsplit.
  - unfold some_attempt_ok, elevated_ok.
    destruct Hs as [Hp|Hp]; rewrite Hp; cbn [String.eqb win32 darwin Ascii.eqb Bool.eqb].
    + rewrite (copyAttempts_win32 h src dst d Hp). cbn zeta.
      destruct (execSync_cases h (elevatedCommandWindows src dst) d)
        as [[Ec ->]|(e & Ec & ->)]; rewrite Ec; cbn [res disk trace orb];
        [reflexivity|]. apply direct_copy_ok_res.
    + rewrite (copyAttempts_darwin h src dst d Hp). cbn zeta.
      destruct (direct_copy_ok h src dst d) eqn:Hd; cbn [orb].
      * intros _. apply direct_copy_ok_res in Hd. now rewrite Hd.
      * apply direct_copy_ok_res in Hd as (e & Hd). rewrite Hd.
        cbn [res disk trace].
        assert (Ed : disk (fs_copyFileSync h src dst d) = d).
        { destruct (fs_copyFileSync_cases h src dst d)
            as [(c & _ & E)|(e0 & E)]; rewrite E in Hd |- *;
            [discriminate Hd|reflexivity]. }
        rewrite Ed.
        destruct (execSync_cases h (elevatedCommandMac src dst) d)
          as [[Ec ->]|(e' & Ec & ->)]; rewrite Ec; [reflexivity|discriminate].
  - unfold some_attempt_ok, elevated_ok.
    destruct Hs as [Hp|Hp]; rewrite Hp; cbn [String.eqb win32 darwin Ascii.eqb Bool.eqb].
    + rewrite (copyAttempts_win32 h src dst d Hp). cbn zeta.
      destruct (execSync_cases h (elevatedCommandWindows src dst) d)
        as [[Ec ->]|(e & Ec & ->)]; rewrite Ec; cbn [res disk trace orb];
        [discriminate|]. apply direct_copy_ok_res.
    + rewrite (copyAttempts_darwin h src dst d Hp). cbn zeta.
      destruct (direct_copy_ok h src dst d) eqn:Hd; cbn [orb]; [discriminate|].
      apply direct_copy_ok_res in Hd as (e & Hd). rewrite Hd.
      cbn [res disk trace].
      assert (Ed : disk (fs_copyFileSync h src dst d) = d).
      { destruct (fs_copyFileSync_cases h src dst d)
          as [(c & _ & E)|(e0 & E)]; rewrite E in Hd |- *;
          [discriminate Hd|reflexivity]. }
      rewrite Ed.
      destruct (execSync_cases h (elevatedCommandMac src dst) d)
        as [[Ec ->]|(e' & Ec & ->)]; rewrite Ec; [discriminate|eauto].
  - intros H1 (e & H2). congruence.
Qed.

Lemma completed_stage h d : completed h d <-> stage_completed h d.
Proof.
  unfold completed, stage_completed.
  split; intros (f & Hr & Ha); exists f.
  - apply installable_reaches_copy in Hr. split; [assumption|].
    pose proof Hr as (Hs & root & _ & _ & _ & He).
    rewrite (stage_disk_ensured h d f He). now apply some_attempt_ok_res.
  - pose proof Hr as (Hs & root & _ & _ & _ & He).
    split; [now apply installable_reaches_copy|].
    rewrite (stage_disk_ensured h d f He) in Ha. now apply some_attempt_ok_res.
Qed.

Lemma failure_condition_stage h d k :
  failure_condition h d k <-> stage_failure h d k.
Proof.
  destruct k; cbn [failure_condition stage_failure]; try reflexivity.
  split.
  - intros (f & Hr & Ha). apply installable_reaches_copy in Hr.
    pose proof Hr as (Hs & root & _ & _ & _ & He).
    rewrite <- (stage_disk_ensured h d f He) in Ha.
    apply some_attempt_ok_res in Ha as (e & Ha); [|assumption].
    now exists f, e.
  - intros (f & e & Hr & Ha). exists f.
    pose proof Hr as (Hs & root & _ & _ & _ & He).
    split; [now apply installable_reaches_copy|].
    rewrite <- (stage_disk_ensured h d f He). apply some_attempt_ok_res; eauto.
Qed.

(** ** The joins of the script, as Node computes them

    On the literal roots, and on the folders built from them, joining with
    the separator is what [path.join] does. *)
Lemma path_join_on_candidates h root f :
  supported h ->
  In root (getPossibleAfterEffectsPaths h) ->
  destinationFolder h root = Some f ->
  f = (if String.eqb (platform h) win32
       then node_path_join (platform h)
              [root; "Support Files"; "Scripts"; "ScriptUI Panels"]
       else node_path_join (platform h) [root; "Scripts"; "ScriptUI Panels"])
  /\ scriptIn h f = node_path_join (platform h) [f; "mcp-bridge-auto.jsx"].
Proof.
  unfold getPossibleAfterEffectsPaths, destinationFolder, scriptIn.
  intros [Hp|Hp]; rewrite Hp; cbn [String.eqb win32 darwin Ascii.eqb Bool.eqb In];
    intros Hroot [= <-];
    repeat (destruct Hroot as [<-|Hroot]); try contradiction;
    vm_compute; split; reflexivity.
Qed.

(** ** The pieces of a trace that depend on the platform *)

(** The platform-dependent pieces of a trace, spelled out. *)
Lemma nextStepsLog_supported h :
  supported h ->
  nextStepsLog h
  = [ EvLog successBanner;
      EvLog (nl +:+ "Important next steps:");
      EvLog "1. Open After Effects";
      EvLog (if String.eqb (platform h) win32
             then "2. Go to Edit > Preferences > Scripting & Expressions"
             else "2. Go to Adobe After Effects > Preferences > Scripting & Expressions");
      EvLog ("3. Enable " +:+ dq +:+ "Allow Scripts to Write Files and Access Network" +:+ dq);
      EvLog "4. Restart After Effects";
      EvLog "5. Open the bridge panel: Window > mcp-bridge-auto.jsx" ].
Proof.
  unfold nextStepsLog, nextSteps. intros [Hp|Hp]; rewrite Hp; reflexivity.
Qed.

Lemma manualInstallationLog_supported h src dst message :
  supported h ->
  manualInstallationLog h src dst message
  = [ EvError ("Error installing script: " +:+ message);
      EvError (nl +:+ "Please try manual installation:");
      EvError ("1. Copy: " +:+ src);
      EvError ("2. To: " +:+ dst);
      EvError (if String.eqb (platform h) win32
               then "3. You may need to run as administrator or use File Explorer with admin rights"
               else "3. You may need to use sudo or run with administrator privileges");
      EvExit 1 ].
Proof.
  unfold manualInstallationLog, manualInstallation.
  intros [Hp|Hp]; rewrite Hp; reflexivity.
Qed.

Lemma requireInstallation_None_supported h d :
  supported h ->
  trace (requireInstallation h None d)
  = [ EvError "Error: Could not find After Effects installation.";
      EvError "Please manually copy the bridge script to your After Effects ScriptUI Panels folder.";
      EvError "Source: build/scripts/mcp-bridge-auto.jsx";
      EvError (if String.eqb (platform h) win32
               then "Target: C:\Program Files\Adobe\Adobe After Effects [VERSION]\Support Files\Scripts\ScriptUI Panels\"
               else "Target: /Applications/Adobe After Effects [VERSION]/Scripts/ScriptUI Panels/");
      EvExit 1 ].
Proof.
  unfold requireInstallation, manualTarget.
  intros [Hp|Hp]; rewrite Hp; reflexivity.
Qed.

Lemma fs_calls_nextStepsLog h :
  supported h -> List.filter is_fs_call (nextStepsLog h) = [].
Proof. intros Hs. now rewrite (nextStepsLog_supported h Hs). Qed.

Lemma fs_calls_manualInstallationLog h src dst e :
  supported h -> List.filter is_fs_call (manualInstallationLog h src dst e) = [].
Proof. intros Hs. now rewrite (manualInstallationLog_supported h _ _ _ Hs). Qed.

(** The direct copy, by what the system answers. *)
Lemma fs_copyFileSync_ok_cases h src dst d :
  (direct_copy_ok h src dst d = true /\
   exists content,
     files d !! src = Some content /\
     fs_copyFileSync h src dst d
     = Result (Ret tt) (write_file dst content d) [EvCopyFile src dst true])
  \/ (direct_copy_ok h src dst d = false /\
      exists e,
        fs_copyFileSync h src dst d = Result (Throw e) d [EvCopyFile src dst false]).
Proof.
  unfold direct_copy_ok, fs_copyFileSync.
  destruct (copy_error h src dst d) as [e|]; [right; eauto|].
  destruct (files d !! src) as [c|]; [left|right]; eauto.
Qed.

(** ** [path.join] at work *)

Example posix_join_plain :
  posix_join ["/repo"; "build"; "scripts"; "mcp-bridge-auto.jsx"]
  = "/repo/build/scripts/mcp-bridge-auto.jsx".
Proof. reflexivity. Qed.

Example posix_join_root :
  posix_join ["/"; "build"; "scripts"; "mcp-bridge-auto.jsx"]
  = "/build/scripts/mcp-bridge-auto.jsx".
Proof. reflexivity. Qed.

Example posix_join_dots : posix_join ["/a/b/"; ".."; "./c//d"; ""] = "/a/c/d".
Proof. reflexivity. Qed.

Example posix_join_relative : posix_join [""; ".."; "x"; ".."; ".."] = "../..".
Proof. reflexivity. Qed.

Example win32_join_plain :
  win32_join ["C:\repo"; "build"; "scripts"; "mcp-bridge-auto.jsx"]
  = "C:\repo\build\scripts\mcp-bridge-auto.jsx".
Proof. reflexivity. Qed.

Example win32_join_root :
  win32_join ["C:\"; "build"; "scripts"; "mcp-bridge-auto.jsx"]
  = "C:\build\scripts\mcp-bridge-auto.jsx".
Proof. reflexivity. Qed.

Example win32_join_slashes : win32_join ["C:/repo/tools/"; ".."; "build"] = "C:\repo\build".
Proof. reflexivity. Qed.

Example win32_join_unc :
  win32_join ["\\server\share"; "build"; "scripts"] = "\\server\share\build\scripts".
Proof. reflexivity. Qed.

(** The source artifact of an installer at the root of a volume. *)
Example sourceScript_at_root_darwin :
  sourceScript macRootHost = "/build/scripts/mcp-bridge-auto.jsx".
Proof. reflexivity. Qed.

Example sourceScript_at_root_win32 :
  sourceScript winRootHost = "C:\build\scripts\mcp-bridge-auto.jsx".
Proof. reflexivity. Qed.

(** Such an installer finds its artifact and installs it. *)
Example run_at_root_installs :
  exit_status (run macRootHost macRootDisk) = 0%Z
  /\ files (disk (run macRootHost macRootDisk)) !! macTarget = Some "bridge v2".
Proof. vm_compute. split; reflexivity. Qed.

(** A source that exists but is a directory passes the existence check;
    the direct copy then fails, and here the elevated one too. *)
Example run_source_is_directory :
  existsSync macDiskSourceIsDir (sourceScript macDirSourceHost) = true
  /\ exit_status (run macDirSourceHost macDiskSourceIsDir) = 1%Z
  /\ In (EvCopyFile macSource macTarget false)
        (trace (run macDirSourceHost macDiskSourceIsDir)).
Proof. vm_compute. repeat split. tauto. Qed.

(** The conditions of success and failure on the example machines. *)
Example completed_macLockedHost : completed macLockedHost macDisk.
Proof.
  exists macFolder. split.
  - split; [now right|]. exists macRoot. vm_compute. repeat split.
  - vm_compute. reflexivity.
Qed.

Example copy_failed_winDeniedHost : failure_condition winDeniedHost winDisk CopyFailed.
Proof.
  exists winFolder. split.
  - split; [now left|]. exists winRoot. vm_compute. repeat split.
  - vm_compute. reflexivity.
Qed.

(** With neither copy allowed, the installer at the root finds its
    artifact, creates the folder and fails in the copy. *)
Example run_at_root_denied :
  exit_status (run macRootDeniedHost macRootDisk) = 1%Z
  /\ disk (run macRootDeniedHost macRootDisk) = make_dirs "/"%char macFolder macRootDisk
  /\ reports CopyFailed (trace (run macRootDeniedHost macRootDisk)) = true.
Proof. vm_compute. repeat split. Qed.

(** * The properties *)

(** ** The copy stage *)

(** C1: in a run that reaches the copy stage the attempts come in an order
    that depends on the platform.  On [win32] the elevated copy is made
    first and the direct copy only after the elevated one has failed; on
    [darwin] the direct copy is made first and the elevated one only after
    the direct one has failed.  A first attempt that succeeds is the only
    attempt; a first failure followed by a second success ends with status
    0; the copy failure is reported, with status 1, exactly when both
    attempts have failed. *)
Theorem C1_attempt_order (h : host) (d : fsys) (f : string) :
  reaches_copy h d f ->
  let r := run h d in
  let src := sourceScript h in
  let dst := scriptIn h f in
  (platform h = win32 ->
   let cmd := elevatedCommandWindows src dst in
   (attempts (trace r) = [EvExec cmd true] /\ exit_status r = 0%Z)
   \/ (attempts (trace r) = [EvExec cmd false; EvCopyFile src dst true]
       /\ exit_status r = 0%Z)
   \/ (attempts (trace r) = [EvExec cmd false; EvCopyFile src dst false]
       /\ exit_status r = 1%Z))
  /\ (platform h = darwin ->
      let cmd := elevatedCommandMac src dst in
      (attempts (trace r) = [EvCopyFile src dst true] /\ exit_status r = 0%Z)
      \/ (attempts (trace r) = [EvCopyFile src dst false; EvExec cmd true]
          /\ exit_status r = 0%Z)
      \/ (attempts (trace r) = [EvCopyFile src dst false; EvExec cmd false]
          /\ exit_status r = 1%Z))
  /\ (reports CopyFailed (trace r) = true <-> exit_status r = 1%Z).
Proof.
  intros Hr r src dst. subst r. rewrite (run_reaches_copy h d f Hr).
  fold src dst. destruct Hr as (Hs & root & _ & _ & _ & He).
  set (d1 := disk (ensureDestinationFolder h f d)).
  set (pre := probes d (getPossibleAfterEffectsPaths h) ++ _).
  assert (Hpre : attempts pre = []).
  { subst pre. rewrite attempts_app, attempts_probes. cbn.
    apply attempts_ensureDestinationFolder. }
  assert (Hrep : reports CopyFailed pre = false).
  { subst pre. rewrite reports_app, reports_probes. cbn.
    now apply reports_ensureDestinationFolder_ok. }
  assert (Hwin : platform h = win32 -> platform h <> darwin)
    by (intros -> [=]).
  unfold prepend. cbn [trace]. rewrite exit_status_prepended.
  rewrite attempts_app, reports_app, Hpre, Hrep. cbn [app orb].
  destruct Hs as [Hp|Hp].
  - destruct (copyScript_win32 h src dst d1 Hp)
      as [(_ & _ & ->)|[(e & content & _ & _ & _ & ->)|(e & e' & _ & _ & _ & ->)]];
      cbn [trace res disk exit_status];
      rewrite !attempts_cons, !reports_cons,
        ?attempts_nextStepsLog, ?attempts_manualInstallationLog,
        ?reports_nextStepsLog, ?reports_manualInstallationLog;
      cbn [is_attempt installing announces orb];
      (split; [intros _|split; [intros Hd; now apply Hwin in Hd|]]).
    + now left.
    + split; discriminate.
    + right; left. now split.
    + split; discriminate.
    + right; right. now split.
    + now split.
  - destruct (copyScript_darwin h src dst d1 Hp)
      as [(content & _ & _ & ->)|[(e & _ & _ & _ & ->)|(e & e' & _ & _ & _ & ->)]];
      cbn [trace res disk exit_status];
      rewrite !attempts_cons, !reports_cons,
        ?attempts_nextStepsLog, ?attempts_manualInstallationLog,
        ?reports_nextStepsLog, ?reports_manualInstallationLog;
      cbn [is_attempt installing announces orb];
      (split; [intros Hw; now apply Hwin in Hw|split; [intros _|]]).
    + now left.
    + split; discriminate.
    + right; left. now split.
    + split; discriminate.
    + right; right. now split.
    + now split.
Qed.

(** On a Windows machine whose elevation is declined: the run reaches the
    copy stage and the direct copy decides. *)
Lemma C1_attempt_order_witness :
  reports CopyFailed (trace (run winHost winDisk)) = true
  <-> exit_status (run winHost winDisk) = 1%Z.
Proof.
  exact (proj2 (proj2 (C1_attempt_order winHost winDisk winFolder
                         winHost_reaches_copy))).
Defined.

(** C2, as stated, fails on Windows: the subordinate process ends in
    failure, the direct copy that follows succeeds, and the installer
    reports success. *)
Lemma C2_counterexample :
  In (EvExec (elevatedCommandWindows (sourceScript winHost) (scriptIn winHost winFolder))
        false)
     (trace (run winHost winDisk))
  /\ exit_status (run winHost winDisk) = 0%Z.
Proof.
  split; [|vm_compute; reflexivity].
  vm_compute. repeat (first [left; reflexivity | right]).
Qed.

(** C2, amended: the installer reads nothing of the subordinate invocation
    but whether [execSync] returned or threw.  In a run that makes the
    call, the command is the elevated copy of the platform for the source
    and the destination, and the call is marked successful exactly when the
    subordinate ended without error.

    On [darwin] the subordinate is the copy itself ([sudo cp]) and the
    parent waits for it: the call comes after the failed direct copy, it is
    the last call the run makes on the file system, and the run ends on the
    file system the subordinate left when it ended, with status 0 when the
    subordinate succeeded and with status 1 and the copy failure reported
    when it failed.

    On [win32] a successful invocation is the only attempt and the run ends
    with status 0; a failing one is caught, the direct copy is then
    attempted on what the subordinate left, and the run ends with status 0
    when that copy succeeds and with status 1 and the copy failure reported
    when it does not. *)
Theorem C2_subordinate_status (h : host) (d : fsys) (cmd : string) (ok : bool) :
  In (EvExec cmd ok) (trace (run h d)) ->
  exists f,
    installable h d f /\
    let src := sourceScript h in
    let dst := scriptIn h f in
    let child := spawn h cmd (stage_disk h d f) in
    cmd = elevatedCommand h src dst
    /\ (ok = true <-> child_error child = None)
    /\ (platform h = darwin ->
        attempts (trace (run h d)) = [EvCopyFile src dst false; EvExec cmd ok]
        /\ (exists pre post,
              trace (run h d) = pre ++ EvExec cmd ok :: post
              /\ List.filter is_fs_call post = [])
        /\ disk (run h d) = child_disk child
        /\ (ok = true -> exit_status (run h d) = 0%Z)
        /\ (ok = false ->
            exit_status (run h d) = 1%Z
            /\ reports CopyFailed (trace (run h d)) = true))
    /\ (platform h = win32 ->
        (ok = true ->
         attempts (trace (run h d)) = [EvExec cmd true]
         /\ exit_status (run h d) = 0%Z)
        /\ (ok = false ->
            exists copied,
              attempts (trace (run h d))
              = [EvExec cmd false; EvCopyFile src dst copied]
              /\ copied = direct_copy_ok h src dst (child_disk child)
              /\ (copied = true -> exit_status (run h d) = 0%Z)
              /\ (copied = false ->
                  exit_status (run h d) = 1%Z
                  /\ reports CopyFailed (trace (run h d)) = true))).
Proof.
  intros Hin.
  assert (Hreach : exists f, reaches_copy h d f).
  { revert Hin. apply (run_cases h d (fun r =>
      In (EvExec cmd ok) (trace r) -> exists f, reaches_copy h d f)).
    - intros _ _ Hin. cbn in Hin. intuition discriminate.
    - intros _ _ Hin%In_attempts; [|reflexivity]. cbn [trace] in Hin.
      now rewrite attempts_app, attempts_probes,
        attempts_requireInstallation_None in Hin.
    - intros root f _ _ _ _ Hin%In_attempts; [|reflexivity]. cbn [trace] in Hin.
      now rewrite attempts_app, attempts_probes, attempts_ensureSource in Hin.
    - intros root f e _ _ _ _ _ _ Hin%In_attempts; [|reflexivity].
      cbn [trace] in Hin.
      now rewrite attempts_app, attempts_probes, attempts_cons,
        attempts_ensureDestinationFolder in Hin.
    - intros root f Hs Hf Hfd Hsrc He _. exists f.
      split; [assumption|]. exists root. now repeat split. }
  destruct Hreach as (f & Hr). exists f.
  split; [now apply installable_reaches_copy|].
  pose proof Hr as (Hs & root & _ & _ & _ & He).
  rewrite <- (stage_disk_ensured h d f He).
  set (src := sourceScript h). set (dst := scriptIn h f).
  set (d1 := disk (ensureDestinationFolder h f d)).
  cbn zeta. rewrite (run_reaches_copy h d f Hr) in Hin |- *.
  fold src dst d1 in Hin |- *.
  set (pre := probes d (getPossibleAfterEffectsPaths h)
              ++ EvExists src true :: trace (ensureDestinationFolder h f d))
    in Hin |- *.
  assert (Hpre : attempts pre = []).
  { subst pre. now rewrite attempts_app, attempts_probes, attempts_cons,
      attempts_ensureDestinationFolder. }
  assert (Hrep : forall t, reports CopyFailed (pre ++ t) = reports CopyFailed t).
  { intros t. subst pre.
    rewrite !reports_app, reports_probes, reports_cons.
    now rewrite reports_ensureDestinationFolder_ok. }
  unfold prepend in Hin |- *. cbn [trace disk] in Hin |- *.
  rewrite exit_status_prepended, Hrep, attempts_app, Hpre. cbn [app].
  apply In_attempts in Hin; [|reflexivity].
  rewrite attempts_app, Hpre in Hin. cbn [app] in Hin.
  unfold elevatedCommand.
  rewrite copyScript_spec in Hin |- *. cbn zeta in Hin |- *.
  destruct Hs as [Hp|Hp]; rewrite Hp;
    cbn [String.eqb win32 darwin Ascii.eqb Bool.eqb].
  - (* win32 *)
    assert (Hsup : supported h) by now left.
    rewrite (copyAttempts_win32 h src dst d1 Hp) in Hin |- *. cbn zeta in Hin |- *.
    destruct (execSync_cases h (elevatedCommandWindows src dst) d1)
      as [[Ec E]|(e & Ec & E)]; rewrite E in Hin |- *; clear E;
      cbn [res disk trace exit_status app] in Hin |- *.
    + rewrite !attempts_cons, attempts_nextStepsLog in Hin |- *.
      cbn [is_attempt installing In] in Hin |- *.
      destruct Hin as [Hin|[]]. injection Hin as <- <-. rewrite Ec.
      repeat split; try reflexivity; try discriminate; try tauto.
    + destruct (fs_copyFileSync_ok_cases h src dst
                  (child_disk (spawn h (elevatedCommandWindows src dst) d1)))
        as [(Hok & content & _ & E)|(Hok & e' & E)];
        rewrite E in Hin |- *; clear E;
        cbn [res disk trace exit_status app] in Hin |- *;
        rewrite !attempts_cons, ?attempts_nextStepsLog,
          ?attempts_manualInstallationLog in Hin |- *;
        cbn [is_attempt installing In] in Hin |- *;
        repeat (destruct Hin as [Hin|Hin]); try discriminate Hin;
        try contradiction; injection Hin as <- <-; rewrite Ec, Hok.
      * split; [reflexivity|]. split; [split; discriminate|].
        split; [intros [=]|]. intros _.
        split; [discriminate|]. intros _. exists true.
        repeat split; try reflexivity; discriminate.
      * split; [reflexivity|]. split; [split; discriminate|].
        split; [intros [=]|]. intros _.
        split; [discriminate|]. intros _. exists false.
        repeat split; try reflexivity; discriminate.
  - (* darwin *)
    assert (Hsup : supported h) by now right.
    rewrite (copyAttempts_darwin h src dst d1 Hp) in Hin |- *. cbn zeta in Hin |- *.
    destruct (fs_copyFileSync_ok_cases h src dst d1)
      as [(Hok & content & _ & E)|(Hok & e' & E)];
      rewrite E in Hin |- *; clear E;
      cbn [res disk trace exit_status app] in Hin |- *.
    + rewrite !attempts_cons, attempts_nextStepsLog in Hin.
      cbn [is_attempt installing In] in Hin.
      now destruct Hin as [Hin|[]].
    + destruct (execSync_cases h (elevatedCommandMac src dst) d1)
        as [[Ec E]|(e & Ec & E)]; rewrite E in Hin |- *; clear E;
        cbn [res disk trace exit_status app] in Hin |- *;
        rewrite !attempts_cons, ?attempts_nextStepsLog,
          ?attempts_manualInstallationLog in Hin |- *;
        cbn [is_attempt installing In] in Hin |- *;
        repeat (destruct Hin as [Hin|Hin]); try discriminate Hin;
        try contradiction; injection Hin as <- <-; rewrite Ec.
      * split; [reflexivity|]. split; [split; reflexivity|].
        split; [|intros [=]]. intros _.
        split; [reflexivity|]. split.
        { exists (pre ++ [installing dst; EvCopyFile src dst false;
                          EvError "Normal copy failed. Trying with elevated privileges..."]),
                 (nextStepsLog h).
          split; [now rewrite <- app_assoc|now apply fs_calls_nextStepsLog]. }
        repeat split; try reflexivity; discriminate.
      * split; [reflexivity|]. split; [split; discriminate|].
        split; [|intros [=]]. intros _.
        split; [reflexivity|]. split.
        { exists (pre ++ [installing dst; EvCopyFile src dst false;
                          EvError "Normal copy failed. Trying with elevated privileges..."]),
                 (manualInstallationLog h src dst e).
          split; [now rewrite <- app_assoc|now apply fs_calls_manualInstallationLog]. }
        split; [reflexivity|]. split; [discriminate|]. intros _.
        split; [reflexivity|].
        rewrite !reports_cons, reports_manualInstallationLog. reflexivity.
Qed.

(** On a Mac whose direct copy is refused and whose elevated copy works. *)
Lemma C2_subordinate_status_witness :
  In (EvExec (elevatedCommandMac macSource macTarget) true)
     (trace (run macLockedHost macDisk))
  /\ exit_status (run macLockedHost macDisk) = 0%Z.
Proof.
  split; [exact macLockedHost_exec|].
  destruct (C2_subordinate_status macLockedHost macDisk _ _ macLockedHost_exec)
    as (f & _ & _ & _ & H & _).
  destruct (H eq_refl) as (_ & _ & _ & H0 & _).
  exact (H0 eq_refl).
Defined.

(** ** The locator *)

(** C3: the locator [findInstallation] selects exactly the first candidate
    that exists, probing the candidates in their listed order and no
    further; it selects none exactly when no candidate exists, and then the
    run probes all of them, writes the source path and the destination
    template with its [VERSION] placeholder, and exits with status 1. *)
Theorem C3_locator_first_existing (h : host) (d : fsys) :
  let paths := getPossibleAfterEffectsPaths h in
  let r := findInstallation paths d in
  (forall root,
     res r = Ret (Some root) <->
     exists i, paths !! i = Some root /\ existsSync d root = true /\
               forall j q, j < i -> paths !! j = Some q -> existsSync d q = false)
  /\ (res r = Ret None <-> forall q, q ∈ paths -> existsSync d q = false)
  /\ (exists n, trace r = map (fun p => EvExists p (existsSync d p)) (take n paths))
  /\ disk r = d
  /\ (supported h ->
      (forall q, q ∈ paths -> existsSync d q = false) ->
      run h d
      = Result (Exit 1) d
          (map (fun p => EvExists p false) paths
           ++ [ EvError "Error: Could not find After Effects installation.";
                EvError "Please manually copy the bridge script to your After Effects ScriptUI Panels folder.";
                EvError "Source: build/scripts/mcp-bridge-auto.jsx";
                EvError (if String.eqb (platform h) win32
                         then "Target: C:\Program Files\Adobe\Adobe After Effects [VERSION]\Support Files\Scripts\ScriptUI Panels\"
                         else "Target: /Applications/Adobe After Effects [VERSION]/Scripts/ScriptUI Panels/");
                EvExit 1 ])).
Proof.
  intros paths r. subst r. rewrite findInstallation_spec. cbn [res disk trace].
  repeat split.
  - intros [= E]. now apply find_first_index.
  - intros E. f_equal. now apply find_first_index.
  - intros [= E]. now apply find_none_iff.
  - intros E. f_equal. now apply find_none_iff.
  - unfold probes. destruct (upto_first_take (existsSync d) paths) as [n ->]. now exists n.
  - intros Hs Hnone. apply (run_cases h d (fun r => r = _)).
    + intros Hw Hd. destruct Hs; contradiction.
    + intros _ _. rewrite probes_none by assumption. f_equal. f_equal.
      unfold requireInstallation, manualTarget.
      destruct Hs as [Hp|Hp]; rewrite Hp; reflexivity.
    + intros root f _ Hf. exfalso. apply find_none_iff in Hnone. fold paths in Hf. congruence.
    + intros root f e _ Hf. exfalso. apply find_none_iff in Hnone. fold paths in Hf. congruence.
    + intros root f _ Hf. exfalso. apply find_none_iff in Hnone. fold paths in Hf. congruence.
Qed.

(** Scenario A: 2025 absent, 2024 and 2023 present. *)
Example scenario_A_selects_2024 :
  res (findInstallation (getPossibleAfterEffectsPaths winHost) winDisk)
  = Ret (Some "C:\Program Files\Adobe\Adobe After Effects 2024").
Proof. vm_compute. reflexivity. Qed.

(** On a Mac with no installation at all. *)
Lemma C3_locator_first_existing_witness :
  exit_status (run macHost emptyDisk) = 1%Z.
Proof.
  destruct (C3_locator_first_existing macHost emptyDisk) as (_ & _ & _ & _ & H).
  rewrite H; [reflexivity | now right | ].
  intros q Hq. reflexivity.
Defined.

(** ** Unsupported platforms and missing sources *)

(** C4: on every platform other than [win32] and [darwin] the run writes
    the unsupported-platform error and exits with status 1 at once: its
    whole trace is the two error lines and the exit, so no existence check,
    directory creation or copy is made, and the file system is as it was. *)
Theorem C4_unsupported_platform (h : host) (d : fsys) :
  platform h <> win32 -> platform h <> darwin ->
  run h d
  = Result (Exit 1) d
      [ EvError "Error: After Effects is not officially supported on this platform.";
        EvError "After Effects is only available on Windows and macOS.";
        EvExit 1 ]
  /\ exit_status (run h d) = 1%Z
  /\ List.filter is_fs_call (trace (run h d)) = [].
Proof.
  intros Hw Hd.
  assert (E : run h d
              = Result (Exit 1) d
                  [ EvError "Error: After Effects is not officially supported on this platform.";
                    EvError "After Effects is only available on Windows and macOS.";
                    EvExit 1 ]).
  { unfold run, script.
    rewrite (bind_Exit _ _ _ 1%Z) by now rewrite locateStage_unsupported.
    now rewrite locateStage_unsupported. }
  rewrite E. repeat split.
Qed.

(** Scenario C: on Linux. *)
Lemma C4_unsupported_platform_witness :
  exit_status (run linuxHost macDisk) = 1%Z
  /\ List.filter is_fs_call (trace (run linuxHost macDisk)) = [].
Proof.
  destruct (C4_unsupported_platform linuxHost macDisk) as (_ & E & F).
  - discriminate.
  - discriminate.
  - split; assumption.
Defined.

(** C5: when the source artifact is missing the run exits with status 1
    without having changed anything: the file system is as it was and the
    trace holds no directory creation, copy or subordinate process.  When
    the run has got as far as the source check (an installation was
    located), that check is the last file-system call, and it is followed
    by the expected path, the instruction to build first, and the exit. *)
Theorem C5_missing_source (h : host) (d : fsys) :
  existsSync d (sourceScript h) = false ->
  exit_status (run h d) = 1%Z
  /\ disk (run h d) = d
  /\ List.filter is_mutation (trace (run h d)) = []
  /\ (forall root,
        supported h ->
        List.find (existsSync d) (getPossibleAfterEffectsPaths h) = Some root ->
        trace (run h d)
        = probes d (getPossibleAfterEffectsPaths h)
          ++ [ EvExists (sourceScript h) false;
               EvError ("Error: Source script not found at " +:+ sourceScript h);
               EvError ("Please run " +:+ dq +:+ "npm run build" +:+ dq
                        +:+ " first to generate the script.");
               EvExit 1 ]).
Proof.
  intros Es.
  apply (run_cases h d (fun r =>
    exit_status r = 1%Z /\ disk r = d /\ List.filter is_mutation (trace r) = []
    /\ forall root, supported h ->
         List.find (existsSync d) (getPossibleAfterEffectsPaths h) = Some root ->
         trace r = probes d (getPossibleAfterEffectsPaths h) ++ _)).
  - intros Hw Hd. repeat split. intros root [?|?]; contradiction.
  - intros Hs Hf. repeat split.
    + cbn [trace]. rewrite List.filter_app, probes_no_mutation.
      unfold requireInstallation, manualTarget.
      destruct Hs as [Hp|Hp]; rewrite Hp; reflexivity.
    + intros root _ Hr. congruence.
  - intros root f Hs Hf Hfd _. rewrite ensureSource_missing by assumption.
    repeat split. cbn [trace]. now rewrite List.filter_app, probes_no_mutation.
  - intros root f e _ _ _ Hes. congruence.
  - intros root f _ _ _ Hes. congruence.
Qed.

(** Scenario B: on a Mac where the bridge has not been built. *)
Lemma C5_missing_source_witness :
  exit_status (run macHost macDiskNoSource) = 1%Z
  /\ disk (run macHost macDiskNoSource) = macDiskNoSource.
Proof.
  destruct (C5_missing_source macHost macDiskNoSource) as (E & D & _).
  - vm_compute. reflexivity.
  - split; assumption.
Defined.

(** ** The destination folder *)

(** C6: in a run that has located an installation and found the source,
    the destination folder is looked at first.  If it exists the run makes
    no [mkdirSync] call at all.  If it does not, the run makes exactly one,
    recursive, for that folder: when the call succeeds the copy stage
    starts on a file system in which the folder and every ancestor of it
    are directories and nothing else has changed; when it throws, the run
    writes the failure with the hint about administrative privileges and
    exits with status 1, with no copy attempted and nothing changed. *)
Theorem C6_destination_folder (h : host) (d : fsys) (root f : string) :
  supported h ->
  List.find (existsSync d) (getPossibleAfterEffectsPaths h) = Some root ->
  destinationFolder h root = Some f ->
  existsSync d (sourceScript h) = true ->
  let r := run h d in
  let sep := path_sep (platform h) in
  (existsSync d f = true ->
   List.filter is_mkdir (trace r) = [] /\ reaches_copy h d f)
  /\ (existsSync d f = false -> mkdir_error h f d = None ->
      List.filter is_mkdir (trace r) = [EvMkdir f true true]
      /\ reaches_copy h d f
      /\ disk (ensureDestinationFolder h f d) = make_dirs sep f d
      /\ (forall a, a ∈ ancestors sep f -> a ∈ dirs (make_dirs sep f d))
      /\ f ∈ ancestors sep f
      /\ dirs d ⊆ dirs (make_dirs sep f d)
      /\ files (make_dirs sep f d) = files d)
  /\ (forall e, existsSync d f = false -> mkdir_error h f d = Some e ->
      trace r
      = probes d (getPossibleAfterEffectsPaths h)
        ++ [ EvExists (sourceScript h) true;
             EvExists f false;
             EvMkdir f true false;
             EvError ("Error creating destination folder: " +:+ e);
             EvError "You may need administrative privileges to install the script.";
             EvExit 1 ]
      /\ exit_status r = 1%Z
      /\ attempts (trace r) = []
      /\ disk r = d).
Proof.
  intros Hs Hf Hfd Hsrc r sep.
  assert (Hreach : res (ensureDestinationFolder h f d) = Ret tt -> reaches_copy h d f).
  { intros He. split; [assumption|]. exists root. now repeat split. }
  split; [|split].
  - intros Hex.
    pose proof (ensureDestinationFolder_exists h f d Hex) as Ee.
    assert (Hr : reaches_copy h d f) by (apply Hreach; now rewrite Ee).
    split; [|assumption]. subst r. rewrite (run_reaches_copy h d f Hr), Ee.
    unfold prepend. cbn [trace].
    rewrite !List.filter_app, mkdirs_probes. cbn [List.filter is_mkdir app].
    now apply mkdirs_copyScript.
  - intros Hex Hm.
    pose proof (ensureDestinationFolder_created h f d Hex Hm) as Ee.
    assert (Hr : reaches_copy h d f) by (apply Hreach; now rewrite Ee).
    split; [|split; [assumption|split; [now rewrite Ee|]]].
    + subst r. rewrite (run_reaches_copy h d f Hr), Ee.
      unfold prepend. cbn [trace].
      rewrite !List.filter_app, mkdirs_probes. cbn [List.filter is_mkdir app].
      now rewrite mkdirs_copyScript.
    + split; [intros a; apply make_dirs_ancestors|].
      split; [apply ancestors_self|]. apply make_dirs_keeps.
  - intros e Hex Hm. subst r.
    apply (run_cases h d (fun r => trace r = _ /\ exit_status r = 1%Z
                                   /\ attempts (trace r) = [] /\ disk r = d)).
    + intros Hw Hd. destruct Hs; contradiction.
    + intros _ Hn. congruence.
    + intros root' f' _ _ _ Hsrc'. congruence.
    + intros root' f' e' _ Hf' Hfd' _ _ Hm'.
      assert (f' = f) as -> by congruence.
      assert (e' = e) as -> by congruence.
      rewrite (ensureDestinationFolder_failed h f d e) by assumption.
      cbn [trace disk]. repeat split.
      now rewrite attempts_app, attempts_probes.
    + intros root' f' _ Hf' Hfd' _ He.
      assert (f' = f) as -> by congruence.
      rewrite (ensureDestinationFolder_failed h f d e) in He by assumption.
      discriminate He.
Qed.

(** On a Mac whose panels folder does not exist yet. *)
Lemma C6_destination_folder_witness :
  List.filter is_mkdir (trace (run macHost macDisk)) = [EvMkdir macFolder true true].
Proof.
  destruct (C6_destination_folder macHost macDisk macRoot macFolder) as (_ & H & _).
  - now right.
  - vm_compute. reflexivity.
  - reflexivity.
  - vm_compute. reflexivity.
  - destruct H as [H _]; [vm_compute; reflexivity | reflexivity | exact H].
Defined.

(** The directories a recursive [mkdirSync] of the Mac panels folder
    makes sure of. *)
Example ancestors_mac_folder :
  ancestors "/"%char macFolder
  = [ "/Applications";
      "/Applications/Adobe After Effects 2024";
      "/Applications/Adobe After Effects 2024/Scripts";
      "/Applications/Adobe After Effects 2024/Scripts/ScriptUI Panels" ].
Proof. reflexivity. Qed.

(** ** The resolver *)

(** C7: the resolver of the script (the candidate list of lines 13-34 and
    the destination folder of lines 68-73) depends on the platform
    identifier alone and equals the reference resolver with
    [C:\Program Files] for the program-files directory: on [win32] and on
    [darwin] the same roots, as many as there are year tags, and the
    sub-path appended to the root after one separator; on any other
    identifier no root and no folder.  The year tags descend. *)
Theorem C7_resolver_matches_reference (h : host) :
  match reference_resolve "C:\Program Files" (platform h) with
  | Some p =>
      getPossibleAfterEffectsPaths h = candidateRoots p
      /\ (forall root,
            destinationFolder h root
            = Some (root +:+ String (path_sep (platform h)) EmptyString +:+ subPath p))
      /\ length (getPossibleAfterEffectsPaths h) = length yearSequence
  | None =>
      getPossibleAfterEffectsPaths h = []
      /\ forall root, destinationFolder h root = None
  end
  /\ (forall h',
        platform h' = platform h ->
        getPossibleAfterEffectsPaths h' = getPossibleAfterEffectsPaths h
        /\ forall root, destinationFolder h' root = destinationFolder h root)
  /\ (supported h <-> is_Some (reference_resolve "C:\Program Files" (platform h)))
  /\ StronglySorted gt yearSequence.
Proof.
  repeat split.
  - unfold reference_resolve, getPossibleAfterEffectsPaths, destinationFolder.
    destruct (platform_cases h) as [Hp|[Hp|[Hw Hd]]].
    + rewrite Hp. repeat split.
    + rewrite Hp. repeat split.
    + apply String.eqb_neq in Hw, Hd. unfold win32, darwin in *.
      rewrite Hw, Hd. repeat split.
  - unfold getPossibleAfterEffectsPaths. now rewrite H.
  - intros root. unfold destinationFolder. now rewrite H.
  - unfold reference_resolve. intros [Hp|Hp]; rewrite Hp; cbn; eauto.
  - unfold reference_resolve, supported. intros Hs.
    destruct (platform_cases h) as [Hp|[Hp|[Hw Hd]]]; [tauto..|].
    apply String.eqb_neq in Hw, Hd. unfold win32, darwin in *.
    rewrite Hw, Hd in Hs. now destruct Hs.
  - unfold yearSequence. repeat constructor; lia.
Qed.

(** The reference roots on Windows, spelled out. *)
Example resolver_windows_roots :
  candidateRoots <$> reference_resolve "C:\Program Files" "win32"
  = Some [ "C:\Program Files\Adobe\Adobe After Effects 2025";
           "C:\Program Files\Adobe\Adobe After Effects 2024";
           "C:\Program Files\Adobe\Adobe After Effects 2023";
           "C:\Program Files\Adobe\Adobe After Effects 2022";
           "C:\Program Files\Adobe\Adobe After Effects 2021" ].
Proof. reflexivity. Qed.

(** The destination folder the script computes on a Mac. *)
Example resolver_mac_folder :
  destinationFolder macHost "/Applications/Adobe After Effects 2024"
  = Some "/Applications/Adobe After Effects 2024/Scripts/ScriptUI Panels".
Proof. reflexivity. Qed.

(** ** Exit status *)

(** C8: a run ends with status 0 exactly when it reaches the fully
    successful state (platform resolved, root located, source validated,
    directory ensured, copy succeeded).  In each of the five failure
    conditions the run ends with status 1, its last act being the exit, and
    has by then written the headline of that failure and of no other; a run
    that does not end with status 0 is in one of the five.  The successful
    state and the failure conditions are those of [completed] and
    [failure_condition]: conditions on the platform, on what exists before
    the run, and on what the operating system and the subordinate process
    answer, none of them on what the script returns. *)
Theorem C8_exit_status (h : host) (d : fsys) :
  let r := run h d in
  (exit_status r = 0%Z <-> completed h d)
  /\ (forall k,
        failure_condition h d k ->
        exit_status r = 1%Z
        /\ last (trace r) = Some (EvExit 1)
        /\ reports k (trace r) = true
        /\ forall k', k' <> k -> reports k' (trace r) = false)
  /\ (exit_status r <> 0%Z -> exists k, failure_condition h d k).
Proof.
  intros r. subst r. rewrite completed_stage.
  destruct (run_verdict h d) as [(Hc & He & Hq)|(k & Hk & He & Hl & Hr & Ho)].
  - split; [tauto|]. split.
    + intros k Hk%failure_condition_stage.
      now destruct (completed_no_failure h d k).
    + intros Hne. congruence.
  - split; [|split].
    + split.
      * intros H0. rewrite He in H0. discriminate H0.
      * intros Hc. now destruct (completed_no_failure h d k).
    + intros k0 Hk0%failure_condition_stage.
      rewrite (failure_exclusive h d k0 k Hk0 Hk). tauto.
    + intros _. exists k. now apply failure_condition_stage.
Qed.

(** The first failure condition, on Linux. *)
Example unsupported_run_reports :
  failure_condition linuxHost macDisk UnsupportedPlatform
  /\ exit_status (run linuxHost macDisk) = 1%Z.
Proof. repeat split; discriminate. Qed.

(** The last one, on a Windows machine where neither copy is allowed. *)
Example denied_run_reports :
  reports CopyFailed (trace (run winDeniedHost winDisk)) = true
  /\ exit_status (run winDeniedHost winDisk) = 1%Z.
Proof. vm_compute. split; reflexivity. Qed.

(** ** What an installation leaves *)

(** C9: suppose the elevated copy, when it reports success, has copied the
    source over the destination, and when it fails has changed nothing.  A
    run that ends with status 0 leaves the files as they were except that
    the destination script holds the content of the source, whatever it
    held before: nothing is kept of an earlier version and nothing is
    compared.  A second run on the file system the first one left, if it
    too ends with status 0, leaves that file system exactly as it found
    it. *)
Theorem C9_reinstall (h : host) (d : fsys) (f : string) :
  failed_child_inert h ->
  elevated_copy_copies h (sourceScript h) (scriptIn h f) ->
  reaches_copy h d f ->
  exit_status (run h d) = 0%Z ->
  let src := sourceScript h in
  let dst := scriptIn h f in
  let d1 := disk (run h d) in
  exists content,
    files d !! src = Some content
    /\ files d1 = <[dst := content]> (files d)
    /\ files d1 !! dst = Some content
    /\ (exit_status (run h d1) = 0%Z ->
        disk (run h d1) = d1 /\ files (disk (run h d1)) !! dst = Some content).
Proof.
  intros Hinert Hcopies Hr H0 src dst d1.
  destruct (completed_run_disk h d f Hinert Hcopies Hr H0) as (content & Hsrc & Hd1).
  fold d1 src dst in Hd1, Hsrc.
  assert (Hfiles : files (disk (ensureDestinationFolder h f d)) = files d).
  { destruct Hr as (_ & root & _ & _ & _ & He).
    rewrite (ensureDestinationFolder_disk h f d He). now destruct (existsSync d f). }
  rewrite Hfiles in Hsrc.
  exists content. split; [assumption|].
  assert (Hf1 : files d1 = <[dst := content]> (files d)).
  { rewrite Hd1. cbn [files write_file]. now rewrite Hfiles. }
  assert (Hdst : files d1 !! dst = Some content)
    by (rewrite Hf1; apply lookup_insert_eq).
  split; [assumption|]. split; [assumption|].
  intros H1.
  destruct (reaches_copy_again h d f content Hr Hsrc) as (Hr1 & He1 & Hs1).
  fold src dst in Hr1, He1, Hs1. rewrite <- Hd1 in Hr1, He1, Hs1.
  destruct (completed_run_disk h d1 f Hinert Hcopies Hr1 H1) as (content' & Hsrc' & Hd2).
  fold src dst in Hsrc', Hd2. rewrite He1 in Hsrc', Hd2.
  assert (content' = content) as -> by congruence.
  assert (E : disk (run h d1) = d1).
  { rewrite Hd2. destruct d1 as [ds fs]. unfold write_file. cbn [dirs files] in *.
    f_equal. now apply insert_id. }
  split; [assumption|]. now rewrite E.
Qed.

(** Over an installed earlier version, through the elevated copy. *)
Lemma C9_reinstall_witness :
  files (disk (run macLockedHost macInstalledDisk)) !! macTarget = Some "bridge v2".
Proof.
  destruct (C9_reinstall macLockedHost macInstalledDisk macFolder
              macLockedHost_inert macLockedHost_copies macLockedHost_reaches_copy)
    as (content & Hsrc & _ & Hdst & _).
  - vm_compute. reflexivity.
  - vm_compute in Hsrc. injection Hsrc as <-. exact Hdst.
Defined.

(** The first installation on Windows, through the direct copy, and a
    second one over it. *)
Example reinstall_windows :
  let d1 := disk (run winHost winDisk) in
  files d1 !! scriptIn winHost winFolder = Some "bridge v2"
  /\ exit_status (run winHost d1) = 0%Z
  /\ disk (run winHost d1) = d1.
Proof. vm_compute. repeat split. Qed.

(** C10: suppose a subordinate process that fails changes nothing.  A run
    that created the destination folder and then failed in the copy stage
    ends with status 1 on the file system as [mkdirSync] left it: the
    folder and all its ancestors are directories, and no file has changed.
    That is the only change a failed run leaves: any run that does not end
    with status 0 ends either on the file system it started on or on that
    one with the folder created. *)
Theorem C10_created_folder_stays (h : host) (d : fsys) :
  failed_child_inert h ->
  exit_status (run h d) <> 0%Z ->
  let sep := path_sep (platform h) in
  (forall f,
     reaches_copy h d f -> existsSync d f = false ->
     exit_status (run h d) = 1%Z
     /\ disk (run h d) = make_dirs sep f d
     /\ (forall a, a ∈ ancestors sep f -> a ∈ dirs (disk (run h d)))
     /\ f ∈ dirs (disk (run h d))
     /\ files (disk (run h d)) = files d)
  /\ (disk (run h d) = d
      \/ exists f,
           reaches_copy h d f /\ existsSync d f = false
           /\ disk (run h d) = make_dirs sep f d).
Proof.
  intros Hinert Hne sep.
  assert (Hcreated : forall f,
    reaches_copy h d f -> existsSync d f = false ->
    disk (run h d) = make_dirs sep f d).
  { intros f Hr Hex. rewrite (failed_copy_disk h d f Hinert Hr Hne).
    destruct Hr as (_ & root & _ & _ & _ & He).
    rewrite (ensureDestinationFolder_disk h f d He), Hex. reflexivity. }
  split.
  - intros f Hr Hex. rewrite (Hcreated f Hr Hex).
    split; [|split; [reflexivity|split; [|split]]].
    + destruct (run_verdict h d) as [(_ & E & _)|(k & _ & E & _)]; congruence.
    + intros a. apply make_dirs_ancestors.
    + apply make_dirs_ancestors, ancestors_self.
    + reflexivity.
  - destruct (run_verdict h d) as [(_ & E & _)|(k & Hk & _)]; [congruence|].
    destruct k.
    1-4: left; apply unreached_copy_disk; intros f Hr;
         pose proof (reaches_copy_failure h d f _ Hr Hk); discriminate.
    destruct Hk as (f & e & Hr & _).
    destruct (existsSync d f) eqn:Hex.
    + left. rewrite (failed_copy_disk h d f Hinert Hr Hne).
      destruct Hr as (_ & root & _ & _ & _ & He).
      now rewrite (ensureDestinationFolder_disk h f d He), Hex.
    + right. exists f. repeat split; [apply Hr|apply Hr|assumption|now apply Hcreated].
Qed.

(** On a Windows machine where the folder can be created and neither copy
    is allowed. *)
Lemma C10_created_folder_stays_witness :
  disk (run winDeniedHost winDisk) = make_dirs "\"%char winFolder winDisk.
Proof.
  destruct (C10_created_folder_stays winDeniedHost winDisk) as [H _].
  - apply decliningChild_inert.
  - vm_compute. discriminate.
  - destruct (H winFolder winDeniedHost_reaches_copy) as (_ & E & _).
    + vm_compute. reflexivity.
    + exact E.
Defined.

(** * More about traces *)

Lemma existsb_probes (p : event -> bool) d (l : list string) :
  (forall q b, p (EvExists q b) = false) -> existsb p (probes d l) = false.
Proof.
  intros Hp. unfold probes.
  induction (upto_first (existsSync d) l) as [|x rest IH]; [reflexivity|].
  cbn. now rewrite Hp.
Qed.

Lemma existsb_ensureDestinationFolder_ok (p : event -> bool) h f d :
  (forall q b, p (EvExists q b) = false) ->
  (forall q r b, p (EvMkdir q r b) = false) ->
  res (ensureDestinationFolder h f d) = Ret tt ->
  existsb p (trace (ensureDestinationFolder h f d)) = false.
Proof.
  intros Hex Hmk.
  destruct (ensureDestinationFolder_cases h f d)
    as [[_ ->]|[(_ & _ & ->)|(e & _ & _ & ->)]]; cbn; rewrite ?Hex, ?Hmk;
    [reflexivity..|discriminate].
Qed.

(** The whole trace of a run that reaches the copy stage, up to that
    stage, holds existence checks and at most one directory creation. *)
Lemma existsb_before_copy (p : event -> bool) h f d (t : list event) :
  (forall q b, p (EvExists q b) = false) ->
  (forall q r b, p (EvMkdir q r b) = false) ->
  res (ensureDestinationFolder h f d) = Ret tt ->
  existsb p ((probes d (getPossibleAfterEffectsPaths h)
              ++ EvExists (sourceScript h) true
              :: trace (ensureDestinationFolder h f d)) ++ t)
  = existsb p t.
Proof.
  intros Hex Hmk He.
  rewrite !existsb_app, (existsb_probes p) by assumption. cbn [existsb orb].
  now rewrite Hex, (existsb_ensureDestinationFolder_ok p h f d Hex Hmk He).
Qed.




Lemma starts_with_append (s t : string) : starts_with s (s +:+ t) = true.
Proof.
  induction s as [|c s IH]; [reflexivity|].
  rewrite append_cons. cbn [starts_with]. now rewrite Ascii.eqb_refl, IH.
Qed.

Lemma destinationFolder_under_root h root f :
  destinationFolder h root = Some f -> starts_with root f = true.
Proof.
  unfold destinationFolder, path_join.
  destruct (String.eqb (platform h) win32);
    [|destruct (String.eqb (platform h) darwin); [|discriminate]];
    intros [= <-]; apply starts_with_append.
Qed.

Lemma scriptIn_under_folder h f : starts_with f (scriptIn h f) = true.
Proof. unfold scriptIn, path_join. apply starts_with_append. Qed.

Lemma mutations_app (a b : list event) :
  List.filter is_mutation (a ++ b)
  = List.filter is_mutation a ++ List.filter is_mutation b.
Proof. apply List.filter_app. Qed.

Lemma mutations_cons e (t : list event) :
  List.filter is_mutation (e :: t)
  = if is_mutation e then e :: List.filter is_mutation t
    else List.filter is_mutation t.
Proof. reflexivity. Qed.

Lemma mutations_nextStepsLog h :
  supported h -> List.filter is_mutation (nextStepsLog h) = [].
Proof. intros Hs. now rewrite (nextStepsLog_supported h Hs). Qed.

Lemma mutations_manualInstallationLog h src dst e :
  supported h -> List.filter is_mutation (manualInstallationLog h src dst e) = [].
Proof. intros Hs. now rewrite (manualInstallationLog_supported h _ _ _ Hs). Qed.

(** The mutating calls of the copy stage are its attempts. *)
Lemma mutations_copyScript h src dst d :
  supported h ->
  List.filter is_mutation (trace (copyScript h src dst d))
  = attempts (trace (copyScript h src dst d)).
Proof.
  intros Hs. pose proof Hs as [Hp|Hp].
  - destruct (copyScript_win32 h src dst d Hp)
      as [(_ & _ & ->)|[(e & content & _ & _ & _ & ->)|(e & e' & _ & _ & _ & ->)]];
      cbn [trace]; rewrite !mutations_cons, !attempts_cons;
      cbn [is_mutation is_attempt installing];
      now rewrite ?mutations_nextStepsLog, ?mutations_manualInstallationLog,
        ?attempts_nextStepsLog, ?attempts_manualInstallationLog.
  - destruct (copyScript_darwin h src dst d Hp)
      as [(content & _ & _ & ->)|[(e & _ & _ & _ & ->)|(e & e' & _ & _ & _ & ->)]];
      cbn [trace]; rewrite !mutations_cons, !attempts_cons;
      cbn [is_mutation is_attempt installing];
      now rewrite ?mutations_nextStepsLog, ?mutations_manualInstallationLog,
        ?attempts_nextStepsLog, ?attempts_manualInstallationLog.
Qed.

(** The attempts of the copy stage name the source, the destination and
    the elevated command of the platform. *)
Lemma attempts_copyScript_shape h src dst d e :
  supported h ->
  In e (attempts (trace (copyScript h src dst d))) ->
  (exists ok, e = EvCopyFile src dst ok)
  \/ (exists ok, e = EvExec (elevatedCommand h src dst) ok).
Proof.
  unfold elevatedCommand. intros [Hp|Hp]; rewrite Hp;
    cbn [String.eqb win32 darwin Ascii.eqb Bool.eqb].
  - destruct (copyScript_win32 h src dst d Hp)
      as [(_ & _ & ->)|[(e0 & content & _ & _ & _ & ->)|(e0 & e' & _ & _ & _ & ->)]];
      cbn [trace]; rewrite !attempts_cons, ?attempts_nextStepsLog,
        ?attempts_manualInstallationLog; cbn [is_attempt installing In];
      intros Hin; repeat (destruct Hin as [Hin|Hin]); try contradiction;
      subst e; eauto.
  - destruct (copyScript_darwin h src dst d Hp)
      as [(content & _ & _ & ->)|[(e0 & _ & _ & _ & ->)|(e0 & e' & _ & _ & _ & ->)]];
      cbn [trace]; rewrite !attempts_cons, ?attempts_nextStepsLog,
        ?attempts_manualInstallationLog; cbn [is_attempt installing In];
      intros Hin; repeat (destruct Hin as [Hin|Hin]); try contradiction;
      subst e; eauto.
Qed.

(** * More about strings *)

Lemma append_length (a b : string) :
  String.length (a +:+ b) = String.length a + String.length b.
Proof.
  induction a as [|c a IH]; [reflexivity|].
  rewrite append_cons. cbn [String.length]. now rewrite IH.
Qed.

Lemma append_cancel_l (a x y : string) : a +:+ x = a +:+ y -> x = y.
Proof.
  induction a as [|c a IH]; [trivial|].
  rewrite !append_cons. intros [= E]. now apply IH.
Qed.

Lemma append_same_length (a b x y : string) :
  String.length a = String.length b -> a +:+ x = b +:+ y -> a = b /\ x = y.
Proof.
  revert b. induction a as [|c a IH]; intros [|c' b] Hl; try discriminate Hl.
  - now split.
  - rewrite !append_cons. intros [= -> E]. injection Hl as Hl.
    destruct (IH b Hl E) as [-> ->]. now split.
Qed.

Lemma append_cancel_r (a b t : string) : a +:+ t = b +:+ t -> a = b.
Proof.
  intros E. apply (append_same_length a b t t); [|assumption].
  apply (f_equal String.length) in E. rewrite !append_length in E. lia.
Qed.

(** Two strings cut at the first occurrence of a character agree on both
    sides of the cut. *)
Lemma split_at_char c (a a' r r' : string) :
  has_char c a = false -> has_char c a' = false ->
  a +:+ String c r = a' +:+ String c r' -> a = a' /\ r = r'.
Proof.
  revert a'. induction a as [|x a IH]; intros [|x' a'] Ha Ha'.
  - now intros [= ->].
  - rewrite append_cons. intros [= <- _]. cbn [has_char] in Ha'.
    now rewrite Ascii.eqb_refl in Ha'.
  - rewrite append_cons. intros [= -> _]. cbn [has_char] in Ha.
    now rewrite Ascii.eqb_refl in Ha.
  - rewrite !append_cons. intros [= -> E]. cbn [has_char] in Ha, Ha'.
    apply orb_false_iff in Ha as [_ Ha]. apply orb_false_iff in Ha' as [_ Ha'].
    destruct (IH a' Ha Ha' E) as [-> ->]. now split.
Qed.

Lemma double_backslashes_cons c (s : string) :
  double_backslashes (String c s)
  = if Ascii.eqb c "\"%char
    then String "\"%char (String "\"%char (double_backslashes s))
    else String c (double_backslashes s).
Proof. reflexivity. Qed.

Lemma double_backslashes_app (a b : string) :
  double_backslashes (a +:+ b) = double_backslashes a +:+ double_backslashes b.
Proof.
  induction a as [|c a IH]; [reflexivity|].
  rewrite append_cons, !double_backslashes_cons, IH.
  now destruct (Ascii.eqb c "\"%char).
Qed.

Lemma double_backslashes_inj (a b : string) :
  double_backslashes a = double_backslashes b -> a = b.
Proof.
  revert b. induction a as [|c a IH]; intros [|c' b];
    rewrite ?double_backslashes_cons.
  - reflexivity.
  - cbn [double_backslashes]. now destruct (Ascii.eqb c' "\"%char).
  - cbn [double_backslashes]. now destruct (Ascii.eqb c "\"%char).
  - destruct (Ascii.eqb_spec c "\"%char) as [->|Hc],
             (Ascii.eqb_spec c' "\"%char) as [->|Hc'].
    + intros [= E]. now rewrite (IH b E).
    + intros [= E _]. now subst c'.
    + intros [= E _]. now subst c.
    + intros [= -> E]. now rewrite (IH b E).
Qed.

Lemma double_backslashes_length (s : string) :
  String.length s <= String.length (double_backslashes s).
Proof.
  induction s as [|c s IH]; [reflexivity|].
  rewrite double_backslashes_cons.
  destruct (Ascii.eqb c "\"%char); cbn [String.length]; lia.
Qed.

Lemma double_backslashes_fixed (s : string) :
  double_backslashes s = s <-> has_char "\"%char s = false.
Proof.
  induction s as [|c s IH]; [now split|].
  rewrite double_backslashes_cons. cbn [has_char].
  destruct (Ascii.eqb_spec c "\"%char) as [->|Hc]; cbn [orb].
  - split; [|discriminate]. intros [= E]. exfalso.
    pose proof (double_backslashes_length s) as Hl.
    rewrite <- E in Hl at 1. cbn [String.length] in Hl. lia.
  - rewrite <- IH. split; [now intros [= E]|now intros ->].
Qed.

Lemma has_char_double_backslashes c (s : string) :
  has_char c (double_backslashes s) = has_char c s.
Proof.
  induction s as [|x s IH]; [reflexivity|].
  rewrite double_backslashes_cons. cbn [has_char].
  destruct (Ascii.eqb_spec x "\"%char) as [->|Hx]; cbn [has_char]; rewrite IH;
    [now destruct (Ascii.eqb "\"%char c)|reflexivity].
Qed.

(** * More about what a run leaves *)

Lemma ensureDestinationFolder_files h f d :
  res (ensureDestinationFolder h f d) = Ret tt ->
  files (disk (ensureDestinationFolder h f d)) = files d.
Proof.
  intros He. rewrite (ensureDestinationFolder_disk h f d He).
  now destruct (existsSync d f).
Qed.

Lemma ensureDestinationFolder_exists_mono h f d (p : string) :
  res (ensureDestinationFolder h f d) = Ret tt ->
  existsSync d p = true ->
  existsSync (disk (ensureDestinationFolder h f d)) p = true.
Proof.
  intros He. rewrite (ensureDestinationFolder_disk h f d He).
  destruct (existsSync d f); [trivial|].
  rewrite !existsSync_true_iff. cbn [dirs files make_dirs].
  intros [Hd|Hf]; [left; set_solver|now right].
Qed.

(** After the folder stage has passed, the folder exists. *)
Lemma ensureDestinationFolder_folder h f d :
  res (ensureDestinationFolder h f d) = Ret tt ->
  existsSync (disk (ensureDestinationFolder h f d)) f = true.
Proof.
  intros He. rewrite (ensureDestinationFolder_disk h f d He).
  destruct (existsSync d f) eqn:Ex; [assumption|].
  rewrite existsSync_true_iff. left. apply make_dirs_ancestors, ancestors_self.
Qed.

Lemma write_file_exists_mono dst content d (p : string) :
  existsSync d p = true -> existsSync (write_file dst content d) p = true.
Proof.
  rewrite !existsSync_true_iff. cbn [dirs files write_file].
  intros [Hd|Hf]; [now left|right].
  destruct (decide (dst = p)) as [->|Hne];
    [rewrite lookup_insert_eq; eauto|now rewrite lookup_insert_ne].
Qed.

(** Where a run can end, given what is assumed of the subordinate: where
    it started, or with the folder ensured, or with the script written on
    top of that. *)
Lemma run_disk_cases h d :
  failed_child_inert h ->
  (forall f, reaches_copy h d f ->
             elevated_copy_copies h (sourceScript h) (scriptIn h f)) ->
  disk (run h d) = d
  \/ exists f,
       reaches_copy h d f
       /\ (disk (run h d) = disk (ensureDestinationFolder h f d)
           \/ exists content,
                files d !! sourceScript h = Some content
                /\ disk (run h d)
                   = write_file (scriptIn h f) content
                       (disk (ensureDestinationFolder h f d))).
Proof.
  intros Hinert Hcopies.
  destruct (run_verdict h d) as [((f & Hr & _) & H0 & _)|(k & Hk & H1 & _)].
  - right. exists f. split; [assumption|]. right.
    destruct (completed_run_disk h d f Hinert (Hcopies f Hr) Hr H0)
      as (content & Hsrc & E).
    exists content. split; [|assumption].
    destruct Hr as (_ & root & _ & _ & _ & He).
    now rewrite (ensureDestinationFolder_files h f d He) in Hsrc.
  - assert (Hne : exit_status (run h d) <> 0%Z) by (rewrite H1; discriminate).
    destruct k.
    1-4: left; apply unreached_copy_disk; intros f Hr;
         pose proof (reaches_copy_failure h d f _ Hr Hk); discriminate.
    destruct Hk as (f & e & Hr & _). right. exists f.
    split; [assumption|]. left. now apply failed_copy_disk.
Qed.

(** * More about the locator *)

Lemma yearSequence_descending : StronglySorted gt yearSequence.
Proof. unfold yearSequence. repeat constructor; lia. Qed.

Lemma candidates_by_year h :
  supported h ->
  getPossibleAfterEffectsPaths h = map (candidateFor (platform h)) yearSequence.
Proof.
  unfold getPossibleAfterEffectsPaths, candidateFor, candidateTagged.
  intros [Hp|Hp]; rewrite Hp; reflexivity.
Qed.

(** The first hit in a list built from descending keys is the hit of the
    greatest key. *)
Lemma find_map_descending (g : nat -> string) (p : string -> bool)
    (l : list nat) (r : string) :
  StronglySorted gt l ->
  List.find p (map g l) = Some r ->
  exists y,
    In y l /\ r = g y /\ p r = true
    /\ forall y', In y' l -> y < y' -> p (g y') = false.
Proof.
  induction 1 as [|y0 rest Hsorted IH Hall]; [discriminate|].
  cbn [map List.find]. destruct (p (g y0)) eqn:Ep.
  - intros [= <-]. exists y0. repeat split; [now left|assumption|].
    intros y' [<-|Hin] Hlt; [lia|].
    rewrite Forall_forall in Hall. apply list_elem_of_In in Hin.
    specialize (Hall y' Hin). lia.
  - intros Hf. destruct (IH Hf) as (y & Hy & -> & Hp & Hnewer).
    exists y. repeat split; [now right|assumption|].
    intros y' [<-|Hin] Hlt; [assumption|now apply Hnewer].
Qed.

(** * Further properties *)

(** ** Ways a run ends *)

(** X1: no run dies of an exception nobody caught: it either runs to its
    end or stops through [process.exit(1)].  In particular the [TypeError]
    that line 74 throws when [destinationFolder] was left undefined is never
    raised in a run, although the install stage on its own would raise it,
    before any call, on a platform that lines 69-73 do not know: the guard
    of lines 39-43 is what keeps the script from reaching it. *)
Theorem X1_no_uncaught_exception (h : host) (d : fsys) :
  (res (run h d) = Ret tt \/ res (run h d) = Exit 1)
  /\ (platform h <> win32 -> platform h <> darwin ->
      forall root, installStage h root d = Result (Throw pathTypeError) d []).
Proof.
  split.
  - apply (run_cases h d (fun r => res r = Ret tt \/ res r = Exit 1));
      try (intros; right; reflexivity).
    intros root f [Hp|Hp] _ _ _ _; unfold prepend; cbn [res].
    + destruct (copyScript_win32 h (sourceScript h) (scriptIn h f)
                  (disk (ensureDestinationFolder h f d)) Hp)
        as [(_ & _ & ->)|[(e & content & _ & _ & _ & ->)|(e & e' & _ & _ & _ & ->)]];
        cbn [res]; auto.
    + destruct (copyScript_darwin h (sourceScript h) (scriptIn h f)
                  (disk (ensureDestinationFolder h f d)) Hp)
        as [(content & _ & _ & ->)|[(e & _ & _ & _ & ->)|(e & e' & _ & _ & _ & ->)]];
        cbn [res]; auto.
  - intros Hw Hd root. unfold installStage, destinationFolder.
    apply String.eqb_neq in Hw, Hd. rewrite Hw, Hd. reflexivity.
Qed.

(** X2: the line [Bridge script installed successfully!] is logged in
    exactly the runs that end with status 0. *)
Theorem X2_banner_iff_success (h : host) (d : fsys) :
  existsb (logs successBanner) (trace (run h d)) = true
  <-> exit_status (run h d) = 0%Z.
Proof.
  apply (run_cases h d (fun r =>
    existsb (logs successBanner) (trace r) = true <-> exit_status r = 0%Z)).
  - intros _ _. split; discriminate.
  - intros Hs _. cbn [trace]. rewrite existsb_app, existsb_probes by reflexivity.
    rewrite (requireInstallation_None_supported h d Hs).
    destruct (String.eqb (platform h) win32); split; discriminate.
  - intros root f _ _ _ Hsrc. rewrite ensureSource_missing by assumption.
    cbn [trace]. rewrite existsb_app, existsb_probes by reflexivity.
    split; discriminate.
  - intros root f e _ _ _ _ Hex Hm.
    rewrite (ensureDestinationFolder_failed h f d e) by assumption.
    cbn [trace]. rewrite existsb_app, existsb_probes by reflexivity.
    split; discriminate.
  - intros root f Hs _ _ _ He. unfold prepend. cbn [trace].
    rewrite exit_status_prepended, existsb_before_copy by (reflexivity || assumption).
    pose proof Hs as [Hp|Hp].
    + destruct (copyScript_win32 h (sourceScript h) (scriptIn h f)
                  (disk (ensureDestinationFolder h f d)) Hp)
        as [(_ & _ & ->)|[(e & content & _ & _ & _ & ->)|(e & e' & _ & _ & _ & ->)]];
        cbn [trace res exit_status];
        rewrite ?(nextStepsLog_supported h Hs),
          ?(manualInstallationLog_supported h _ _ _ Hs), Hp;
        split; (reflexivity || discriminate).
    + destruct (copyScript_darwin h (sourceScript h) (scriptIn h f)
                  (disk (ensureDestinationFolder h f d)) Hp)
        as [(content & _ & _ & ->)|[(e & _ & _ & _ & ->)|(e & e' & _ & _ & _ & ->)]];
        cbn [trace res exit_status];
        rewrite ?(nextStepsLog_supported h Hs),
          ?(manualInstallationLog_supported h _ _ _ Hs), Hp;
        split; (reflexivity || discriminate).
Qed.

(** ** What the copy stage writes to the error stream *)



(** On a Windows machine where the build output is a directory: the message
    reported is the one the system gives for the direct copy. *)
Example directory_source_reports_eisdir :
  hd_error (error_lines (trace (run winDirSourceHost winDiskSourceIsDir)))
  = Some ("Error installing script: EISDIR: illegal operation on a directory, copyfile '"
          +:+ winSource +:+ "' -> '" +:+ scriptIn winDirSourceHost winFolder +:+ "'").
Proof. vm_compute. reflexivity. Qed.



(** ** Where a run writes *)

(** X5: every call of a run that can change the file system is aimed at
    the installation the locator selected, and is made only after the
    source was found.  The call is the recursive creation of the destination
    folder, which lies under the selected root; or the copy of the source
    script to the script path inside that folder; or the elevated command of
    the platform for that same source and destination. *)
Theorem X5_writes_only_to_installation (h : host) (d : fsys) (e : event) :
  In e (trace (run h d)) ->
  is_mutation e = true ->
  exists root f,
    List.find (existsSync d) (getPossibleAfterEffectsPaths h) = Some root
    /\ destinationFolder h root = Some f
    /\ existsSync d (sourceScript h) = true
    /\ starts_with root f = true
    /\ starts_with f (scriptIn h f) = true
    /\ ((exists ok, e = EvMkdir f true ok)
        \/ (exists ok, e = EvCopyFile (sourceScript h) (scriptIn h f) ok)
        \/ (exists ok,
              e = EvExec (elevatedCommand h (sourceScript h) (scriptIn h f)) ok)).
Proof.
  intros Hin Hm.
  assert (Hf : In e (List.filter is_mutation (trace (run h d))))
    by (apply List.filter_In; now split).
  clear Hin Hm. revert Hf.
  apply (run_cases h d (fun r =>
    In e (List.filter is_mutation (trace r)) ->
    exists root f,
      List.find (existsSync d) (getPossibleAfterEffectsPaths h) = Some root
      /\ destinationFolder h root = Some f
      /\ existsSync d (sourceScript h) = true
      /\ starts_with root f = true
      /\ starts_with f (scriptIn h f) = true
      /\ ((exists ok, e = EvMkdir f true ok)
          \/ (exists ok, e = EvCopyFile (sourceScript h) (scriptIn h f) ok)
          \/ (exists ok,
                e = EvExec (elevatedCommand h (sourceScript h) (scriptIn h f)) ok)))).
  - intros _ _ [].
  - intros Hs _. cbn [trace].
    rewrite mutations_app, probes_no_mutation,
      (requireInstallation_None_supported h d Hs). intros [].
  - intros root f _ _ _ Hsrc. rewrite ensureSource_missing by assumption.
    cbn [trace]. rewrite mutations_app, probes_no_mutation. intros [].
  - intros root f e0 _ Hf Hfd Hsrc Hex Hmk.
    rewrite (ensureDestinationFolder_failed h f d e0) by assumption.
    cbn [trace]. rewrite mutations_app, probes_no_mutation.
    cbn [List.filter is_mutation app In]. intros [<-|[]].
    exists root, f. repeat split; try assumption.
    + now apply (destinationFolder_under_root h).
    + apply scriptIn_under_folder.
    + left. now exists false.
  - intros root f Hs Hf Hfd Hsrc He. unfold prepend. cbn [trace].
    rewrite !mutations_app, probes_no_mutation, mutations_copyScript by assumption.
    cbn [List.filter is_mutation app]. intros Hin.
    exists root, f. repeat split; try assumption.
    + now apply (destinationFolder_under_root h).
    + apply scriptIn_under_folder.
    + apply List.in_app_or in Hin as [Hin|Hin].
      * left. destruct (ensureDestinationFolder_cases h f d)
          as [[_ E]|[(_ & _ & E)|(e0 & _ & _ & E)]]; rewrite E in Hin, He;
          cbn in Hin; try contradiction; try discriminate He.
        destruct Hin as [<-|[]]. now exists true.
      * right. now apply (attempts_copyScript_shape h _ _ (disk (ensureDestinationFolder h f d))).
Qed.

(** The directory creation of a first installation on a Mac. *)
Lemma X5_writes_only_to_installation_witness :
  exists root f,
    List.find (existsSync macDisk) (getPossibleAfterEffectsPaths macHost) = Some root
    /\ destinationFolder macHost root = Some f
    /\ starts_with root f = true
    /\ macFolder = f.
Proof.
  destruct (X5_writes_only_to_installation macHost macDisk (EvMkdir macFolder true true))
    as (root & f & Hf & Hfd & _ & Hu & _ & [(ok & E)|[(ok & E)|(ok & E)]]);
    try discriminate E.
  - vm_compute. repeat (first [left; reflexivity | right]).
  - reflexivity.
  - exists root, f. injection E as E _. now repeat split.
Defined.

(** ** The elevated commands *)

(** X6: the escaping of line 102, [replace(/\\/g, '\\\\')], loses
    nothing.  It works piece by piece, so escaping a joined path is joining
    the escaped pieces; two different paths never escape to the same text;
    it introduces and removes no character, only repeats backslashes; and it
    leaves a path as it is exactly when the path has no backslash. *)
Theorem X6_double_backslashes_lossless :
  (forall a b : string,
     double_backslashes (a +:+ b) = double_backslashes a +:+ double_backslashes b)
  /\ (forall a b : string, double_backslashes a = double_backslashes b -> a = b)
  /\ (forall c (s : string), has_char c (double_backslashes s) = has_char c s)
  /\ (forall s : string, double_backslashes s = s <-> has_char "\"%char s = false).
Proof.
  split; [exact double_backslashes_app|].
  split; [exact double_backslashes_inj|].
  split; [exact has_char_double_backslashes|exact double_backslashes_fixed].
Qed.

(** The macOS command with the two paths between its quotes. *)
Lemma elevatedCommandMac_shape (src dst : string) :
  elevatedCommandMac src dst
  = "sudo cp "
    +:+ String "034"%char
          (src +:+ String "034"%char
                     (" " +:+ String "034"%char (dst +:+ dq))).
Proof. reflexivity. Qed.

(** X7: the macOS command of line 117 puts both paths between double
    quotes and escapes nothing.  When the source path holds no double quote
    the command determines source and destination.  When it may hold one it
    does not: a source path that contains [" "] gives the very command of a
    shorter source with a longer destination. *)
Theorem X7_mac_command_quoting :
  (forall src src' dst dst' : string,
     has_char "034"%char src = false ->
     has_char "034"%char src' = false ->
     elevatedCommandMac src dst = elevatedCommandMac src' dst' ->
     src = src' /\ dst = dst')
  /\ (forall a b c : string,
        elevatedCommandMac (a +:+ dq +:+ " " +:+ dq +:+ b) c
        = elevatedCommandMac a (b +:+ dq +:+ " " +:+ dq +:+ c)).
Proof.
  split.
  - intros src src' dst dst' Hs Hs' E. rewrite !elevatedCommandMac_shape in E.
    apply append_cancel_l in E. injection E as E.
    destruct (split_at_char _ _ _ _ _ Hs Hs' E) as [-> E'].
    split; [reflexivity|].
    apply append_cancel_l in E'. injection E' as E'.
    now apply append_cancel_r in E'.
  - intros a b c. unfold elevatedCommandMac. now rewrite !append_assoc.
Qed.

(** The Windows command with the two paths, escaped, between fixed texts. *)
Lemma elevatedCommandWindows_shape (src dst : string) :
  elevatedCommandWindows src dst
  = ("powershell -Command " +:+ dq +:+ nl
     +:+ "        Start-Process PowerShell -Verb RunAs -ArgumentList "
     +:+ dq +:+ "-Command Copy-Item -Path ")
    +:+ String "'"%char
          (double_backslashes src
           +:+ String "'"%char
                 (" -Destination '"
                  +:+ double_backslashes dst
                  +:+ ("' -Force" +:+ dq +:+ nl +:+ "      " +:+ dq))).
Proof.
  unfold elevatedCommandWindows. cbn zeta. unfold dq, nl.
  rewrite !append_assoc. reflexivity.
Qed.

(** X8: the Windows command of lines 101-104 determines the two paths
    whenever the source path holds no single quote (the character that
    closes the quoted path inside the command). *)
Theorem X8_windows_command_determines_paths (src src' dst dst' : string) :
  has_char "'"%char src = false ->
  has_char "'"%char src' = false ->
  elevatedCommandWindows src dst = elevatedCommandWindows src' dst' ->
  src = src' /\ dst = dst'.
Proof.
  intros Hs Hs' E. rewrite !elevatedCommandWindows_shape in E.
  apply append_cancel_l in E. injection E as E.
  rewrite <- (has_char_double_backslashes _ src) in Hs.
  rewrite <- (has_char_double_backslashes _ src') in Hs'.
  destruct (split_at_char _ _ _ _ _ Hs Hs' E) as [Es E'].
  apply double_backslashes_inj in Es. split; [assumption|].
  apply append_cancel_l in E'. apply append_cancel_r in E'.
  now apply double_backslashes_inj.
Qed.

(** The paths of an installation on Windows hold no single quote. *)
Lemma X8_windows_command_determines_paths_witness :
  has_char "'"%char (sourceScript winHost) = false
  /\ (sourceScript winHost = sourceScript winHost
      /\ scriptIn winHost winFolder = scriptIn winHost winFolder).
Proof.
  split; [reflexivity|].
  exact (X8_windows_command_determines_paths
           (sourceScript winHost) (sourceScript winHost)
           (scriptIn winHost winFolder) (scriptIn winHost winFolder)
           eq_refl eq_refl eq_refl).
Defined.

(** ** Running again, and what a run keeps *)

(** X9: suppose the elevated copy, when it reports success, has copied
    the source over the destination, and when it fails has changed nothing.
    After a run that ended with status 0, a second run locates the same
    destination folder, finds it in place, and makes no [mkdirSync] call. *)
Theorem X9_second_run_creates_nothing (h : host) (d : fsys) (f : string) :
  failed_child_inert h ->
  elevated_copy_copies h (sourceScript h) (scriptIn h f) ->
  reaches_copy h d f ->
  exit_status (run h d) = 0%Z ->
  let d1 := disk (run h d) in
  reaches_copy h d1 f
  /\ existsSync d1 f = true
  /\ List.filter is_mkdir (trace (run h d1)) = [].
Proof.
  intros Hinert Hcopies Hr H0 d1.
  destruct (completed_run_disk h d f Hinert Hcopies Hr H0) as (content & Hsrc & Hd1).
  fold d1 in Hd1.
  assert (He : res (ensureDestinationFolder h f d) = Ret tt)
    by (now destruct Hr as (_ & root & _ & _ & _ & He)).
  rewrite (ensureDestinationFolder_files h f d He) in Hsrc.
  destruct (reaches_copy_again h d f content Hr Hsrc) as (Hr1 & _ & _).
  rewrite <- Hd1 in Hr1.
  assert (Hex : existsSync d1 f = true).
  { rewrite Hd1. apply write_file_exists_mono.
    now apply ensureDestinationFolder_folder. }
  split; [assumption|]. split; [assumption|].
  rewrite (run_reaches_copy h d1 f Hr1), (ensureDestinationFolder_exists h f d1 Hex).
  unfold prepend. cbn [trace].
  rewrite !List.filter_app, mkdirs_probes. cbn [List.filter is_mkdir app].
  apply mkdirs_copyScript. now destruct Hr.
Qed.

(** A first installation on a Mac through the elevated copy, then a
    second run. *)
Lemma X9_second_run_creates_nothing_witness :
  List.filter is_mkdir
    (trace (run macLockedHost (disk (run macLockedHost macInstalledDisk)))) = [].
Proof.
  destruct (X9_second_run_creates_nothing macLockedHost macInstalledDisk macFolder
              macLockedHost_inert macLockedHost_copies macLockedHost_reaches_copy)
    as (_ & _ & H).
  - vm_compute. reflexivity.
  - exact H.
Defined.

(** X10: under the same two assumptions, no run, successful or not, takes
    anything away: every path that existed before the run exists after it;
    every file other than the destination script has the content it had;
    and the source artifact itself is never altered. *)
Theorem X10_run_removes_nothing (h : host) (d : fsys) :
  failed_child_inert h ->
  (forall f, reaches_copy h d f ->
             elevated_copy_copies h (sourceScript h) (scriptIn h f)) ->
  let d' := disk (run h d) in
  (forall p, existsSync d p = true -> existsSync d' p = true)
  /\ (forall p, (forall f, reaches_copy h d f -> p <> scriptIn h f) ->
                files d' !! p = files d !! p)
  /\ files d' !! sourceScript h = files d !! sourceScript h.
Proof.
  intros Hinert Hcopies d'. subst d'.
  destruct (run_disk_cases h d Hinert Hcopies)
    as [E|(f & Hr & [E|(content & Hsrc & E)])]; rewrite E; clear E.
  - repeat split; trivial.
  - assert (He : res (ensureDestinationFolder h f d) = Ret tt)
      by (now destruct Hr as (_ & root & _ & _ & _ & He)).
    rewrite (ensureDestinationFolder_files h f d He).
    repeat split; trivial.
    intros p. now apply ensureDestinationFolder_exists_mono.
  - assert (He : res (ensureDestinationFolder h f d) = Ret tt)
      by (now destruct Hr as (_ & root & _ & _ & _ & He)).
    cbn [files write_file]. rewrite (ensureDestinationFolder_files h f d He).
    split; [|split].
    + intros p Hp. apply write_file_exists_mono.
      now apply ensureDestinationFolder_exists_mono.
    + intros p Hp. apply lookup_insert_ne. intros Heq. now apply (Hp f Hr).
    + destruct (decide (scriptIn h f = sourceScript h)) as [Heq|Hne].
      * now rewrite Heq, lookup_insert_eq.
      * now rewrite lookup_insert_ne.
Qed.

(** Over an installed earlier version on a Mac: the source is as it was. *)
Lemma X10_run_removes_nothing_witness :
  files (disk (run macLockedHost macInstalledDisk)) !! macSource = Some "bridge v2".
Proof.
  destruct (X10_run_removes_nothing macLockedHost macInstalledDisk) as (_ & _ & H).
  - exact macLockedHost_inert.
  - intros f Hr.
    rewrite (reaches_copy_unique _ _ _ _ macLockedHost_reaches_copy Hr).
    exact macLockedHost_copies.
  - exact H.
Defined.

(** ** When installing needs no elevation, and which installation is taken *)

(** X11: on [darwin], when an installation is located, the source is a
    regular file, the destination folder is there or may be created, and the
    direct copy is permitted, the run ends with status 0 having made the
    direct copy and nothing else: no subordinate process is started,
    whatever it would have done, and the files are as before except for the
    destination script, which holds the content of the source. *)
Theorem X11_mac_direct_install (h : host) (d : fsys) (root f content : string) :
  platform h = darwin ->
  List.find (existsSync d) (getPossibleAfterEffectsPaths h) = Some root ->
  destinationFolder h root = Some f ->
  files d !! sourceScript h = Some content ->
  (forall d', mkdir_error h f d' = None) ->
  (forall d', copy_error h (sourceScript h) (scriptIn h f) d' = None) ->
  exit_status (run h d) = 0%Z
  /\ attempts (trace (run h d)) = [EvCopyFile (sourceScript h) (scriptIn h f) true]
  /\ (forall cmd ok, ~ In (EvExec cmd ok) (trace (run h d)))
  /\ files (disk (run h d)) = <[scriptIn h f := content]> (files d).
Proof.
  intros Hp Hf Hfd Hsrc Hmk Hcp.
  assert (Hs : supported h) by now right.
  assert (Hex : existsSync d (sourceScript h) = true).
  { apply existsSync_true_iff. right. now rewrite Hsrc. }
  assert (He : res (ensureDestinationFolder h f d) = Ret tt).
  { destruct (ensureDestinationFolder_cases h f d)
      as [[_ ->]|[(_ & _ & ->)|(e & _ & Hm & _)]]; try reflexivity.
    now rewrite Hmk in Hm. }
  assert (Hr : reaches_copy h d f).
  { split; [assumption|]. exists root. now repeat split. }
  set (src := sourceScript h) in *. set (dst := scriptIn h f) in *.
  set (d1 := disk (ensureDestinationFolder h f d)).
  assert (Hc : copyScript h src dst d1
               = Result (Ret tt) (write_file dst content d1)
                   (installing dst :: EvCopyFile src dst true :: nextStepsLog h)).
  { rewrite copyScript_spec, (copyAttempts_darwin h src dst d1 Hp). cbn zeta.
    unfold fs_copyFileSync. rewrite Hcp. subst d1.
    now rewrite (ensureDestinationFolder_files h f d He), Hsrc. }
  assert (Ha : attempts (trace (run h d)) = [EvCopyFile src dst true]).
  { rewrite (run_reaches_copy h d f Hr). fold src dst d1. rewrite Hc.
    unfold prepend. cbn [trace].
    rewrite !attempts_app, attempts_probes, !attempts_cons,
      attempts_ensureDestinationFolder, attempts_nextStepsLog.
    reflexivity. }
  split; [|split; [assumption|split]].
  - rewrite (run_reaches_copy h d f Hr). fold src dst d1. now rewrite Hc.
  - intros cmd ok Hin. apply In_attempts in Hin; [|reflexivity].
    rewrite Ha in Hin. now destruct Hin as [[=]|[]].
  - rewrite (run_reaches_copy h d f Hr). fold src dst d1. rewrite Hc.
    unfold prepend. cbn [disk files write_file]. subst d1.
    now rewrite (ensureDestinationFolder_files h f d He).
Qed.

(** A first installation on a Mac where nothing is refused. *)
Lemma X11_mac_direct_install_witness :
  exit_status (run macHost macDisk) = 0%Z
  /\ files (disk (run macHost macDisk)) !! macTarget = Some "bridge v2".
Proof.
  destruct (X11_mac_direct_install macHost macDisk macRoot macFolder "bridge v2")
    as (H0 & _ & _ & Hfiles); try reflexivity.
  split; [exact H0|]. rewrite Hfiles. reflexivity.
Defined.

(** X12: of the installed versions the locator takes the newest: the
    selected root is the candidate of some year, it exists, and the
    candidate of every later year does not. *)
Theorem X12_newest_installed_selected (h : host) (d : fsys) (root : string) :
  supported h ->
  List.find (existsSync d) (getPossibleAfterEffectsPaths h) = Some root ->
  exists y,
    In y yearSequence
    /\ root = candidateFor (platform h) y
    /\ existsSync d root = true
    /\ forall y',
         In y' yearSequence -> y < y' ->
         existsSync d (candidateFor (platform h) y') = false.
Proof.
  intros Hs Hf. rewrite (candidates_by_year h Hs) in Hf.
  exact (find_map_descending _ _ _ _ yearSequence_descending Hf).
Qed.

(** Scenario A again: 2024 is taken, so 2025 is not installed. *)
Lemma X12_newest_installed_selected_witness :
  existsSync winDisk (candidateFor win32 2025) = false.
Proof.
  destruct (X12_newest_installed_selected winHost winDisk winRoot)
    as (y & Hy & Hroot & _ & Hnewer).
  - now left.
  - vm_compute. reflexivity.
  - apply Hnewer; [now left|].
    destruct Hy as [<-|[<-|[<-|[<-|[<-|[]]]]]]; try (vm_compute in Hroot; discriminate Hroot).
    lia.
Defined.

(** ** The manual instructions *)

(** X13: the destination that the not-found message of lines 59 and 61
    tells the user to copy to is the folder that lines 70 and 72 would
    compute for a root whose version is written [[VERSION]], followed by a
    separator: the two places of the script agree on where the panel goes.
    The message also names the source, relative to the installer. *)
Theorem X13_manual_target_matches_folder (h : host) (d : fsys) :
  supported h ->
  List.find (existsSync d) (getPossibleAfterEffectsPaths h) = None ->
  exists f,
    destinationFolder h (candidateTagged (platform h) "[VERSION]") = Some f
    /\ In (EvError ("Target: " +:+ f +:+ String (path_sep (platform h)) EmptyString))
          (trace (run h d))
    /\ In (EvError "Source: build/scripts/mcp-bridge-auto.jsx") (trace (run h d)).
Proof.
  intros Hs Hn.
  apply (run_cases h d (fun r =>
    exists f,
      destinationFolder h (candidateTagged (platform h) "[VERSION]") = Some f
      /\ In (EvError ("Target: " +:+ f +:+ String (path_sep (platform h)) EmptyString))
            (trace r)
      /\ In (EvError "Source: build/scripts/mcp-bridge-auto.jsx") (trace r))).
  - intros Hw Hd. destruct Hs; contradiction.
  - intros _ _. cbn [trace]. rewrite (requireInstallation_None_supported h d Hs).
    unfold destinationFolder, candidateTagged, path_join, path_sep.
    destruct Hs as [Hp|Hp]; rewrite Hp; cbn [String.eqb win32 darwin Ascii.eqb Bool.eqb];
      eexists; (split; [reflexivity|]); split; apply List.in_or_app; right;
      cbn [In]; auto 6.
  - intros root f _ Hf. congruence.
  - intros root f e _ Hf. congruence.
  - intros root f _ Hf. congruence.
Qed.

(** On a Mac with no installation at all. *)
Lemma X13_manual_target_matches_folder_witness :
  In (EvError "Target: /Applications/Adobe After Effects [VERSION]/Scripts/ScriptUI Panels/")
     (trace (run macHost emptyDisk)).
Proof.
  destruct (X13_manual_target_matches_folder macHost emptyDisk) as (f & Hf & Hin & _).
  - now right.
  - reflexivity.
  - injection Hf as <-. exact Hin.
Defined.

(** ** When the elevation is refused on Windows *)

(** X14: on [win32], when an installation is located, the source is a
    regular file, the destination folder is there or may be created, the
    direct copy is permitted and a subordinate that fails changes nothing,
    the run ends with status 0 whether the elevation is granted or not:
    either the subordinate succeeds, or the direct copy after it does. *)
Theorem X14_windows_succeeds_without_elevation
    (h : host) (d : fsys) (root f content : string) :
  platform h = win32 ->
  failed_child_inert h ->
  List.find (existsSync d) (getPossibleAfterEffectsPaths h) = Some root ->
  destinationFolder h root = Some f ->
  files d !! sourceScript h = Some content ->
  (forall d', mkdir_error h f d' = None) ->
  (forall d', copy_error h (sourceScript h) (scriptIn h f) d' = None) ->
  exit_status (run h d) = 0%Z
  /\ (child_error
        (spawn h (elevatedCommandWindows (sourceScript h) (scriptIn h f))
           (disk (ensureDestinationFolder h f d))) <> None ->
      attempts (trace (run h d))
      = [ EvExec (elevatedCommandWindows (sourceScript h) (scriptIn h f)) false;
          EvCopyFile (sourceScript h) (scriptIn h f) true ]
      /\ files (disk (run h d)) = <[scriptIn h f := content]> (files d)).
Proof.
  intros Hp Hinert Hf Hfd Hsrc Hmk Hcp.
  assert (Hs : supported h) by now left.
  assert (Hex : existsSync d (sourceScript h) = true).
  { apply existsSync_true_iff. right. now rewrite Hsrc. }
  assert (He : res (ensureDestinationFolder h f d) = Ret tt).
  { destruct (ensureDestinationFolder_cases h f d)
      as [[_ ->]|[(_ & _ & ->)|(e & _ & Hm & _)]]; try reflexivity.
    now rewrite Hmk in Hm. }
  assert (Hr : reaches_copy h d f).
  { split; [assumption|]. exists root. now repeat split. }
  rewrite (run_reaches_copy h d f Hr). unfold prepend. cbn [trace disk].
  rewrite exit_status_prepended.
  rewrite !attempts_app, attempts_probes, attempts_cons,
    attempts_ensureDestinationFolder. cbn [is_attempt app].
  set (src := sourceScript h) in *. set (dst := scriptIn h f) in *.
  set (d1 := disk (ensureDestinationFolder h f d)).
  assert (Hsrc1 : files d1 !! src = Some content).
  { subst d1. now rewrite (ensureDestinationFolder_files h f d He). }
  destruct (copyScript_win32 h src dst d1 Hp)
    as [(Ec & _ & E)|[(e & content' & Ec & Hc & _ & E)|(e & e' & Ec & Ef & _ & E)]];
    rewrite E; cbn [exit_status res trace disk].
  - split; [reflexivity|]. intros Hne. now destruct Hne.
  - split; [reflexivity|]. intros _.
    rewrite !attempts_cons, attempts_nextStepsLog. cbn [is_attempt installing].
    split; [reflexivity|].
    rewrite (Hinert _ d1) in Hc |- * by now rewrite Ec.
    assert (content' = content) as -> by congruence.
    cbn [files write_file]. subst d1.
    now rewrite (ensureDestinationFolder_files h f d He).
  - exfalso. rewrite (Hinert _ d1) in Ef by now rewrite Ec.
    unfold fs_copyFileSync in Ef. rewrite Hcp, Hsrc1 in Ef. discriminate Ef.
Qed.

(** Scenario D: the elevation is declined, the direct copy installs. *)
Lemma X14_windows_succeeds_without_elevation_witness :
  exit_status (run winHost winDisk) = 0%Z
  /\ files (disk (run winHost winDisk)) !! scriptIn winHost winFolder
     = Some "bridge v2".
Proof.
  destruct (X14_windows_succeeds_without_elevation
              winHost winDisk winRoot winFolder "bridge v2") as (H0 & H);
    try reflexivity.
  - apply decliningChild_inert.
  - split; [exact H0|]. destruct H as (_ & Hfiles); [discriminate|].
    rewrite Hfiles. apply lookup_insert_eq.
Defined.
